(** * Real-Time Multi-Agent Governance: the event-stream pipeline

    A shallow embedding of the services under [services/]:
    - [agent_runtime/agents.py], [agent_runtime/agent_manager.py]
    - [governance/governance_engine.py]
    - [execution/execution_engine.py]
    - [market_feed/replay_player.py]
    - [api/main.py] (the [ConnectionManager])

    Every service is a Python coroutine that talks to Redis streams.  The
    embedding threads an explicit [world] (the sequence of side effects
    performed so far, a supply of uuids and a clock) through a small
    state-and-exception monad [prog].  Redis is taken to be reachable: an
    [xadd] or [xread] never raises here, the exceptions that are modelled
    are the ones the Python code of the services itself can raise. *)

From Stdlib Require Import QArith Qround Sorted.
From stdpp Require Import base strings pretty list gmap.

(** ** JSON documents and the Python operations applied to them *)

(** What [json.loads] returns.  Numbers are rationals: every finite Python
    [int] and [float] is one, and the services only compare numbers with
    zero, truncate them or copy them. *)
#[local] Unset Elimination Schemes.
Inductive json : Type :=
| JNull
| JBool (b : bool)
| JNum (q : Q)
| JStr (s : string)
| JArr (items : list json)
| JObj (members : list (string * json)).
#[local] Set Elimination Schemes.

(** The bytes stored under a stream field or written to a file, seen
    through [json.loads]: either text that does not parse, or the encoding
    of a document ([json.loads (json.dumps d) = d]). *)
Inductive raw : Type :=
| Garbled (text : string)
| Encoded (doc : json).

Inductive exn : Type :=
| AttributeError
| KeyError (key : string)
| TypeError
| JSONDecodeError
| ZeroDivisionError
| RuntimeError
| DataError.

Inductive outcome (A : Type) : Type :=
| Done (a : A)
| Raised (e : exn).
Arguments Done {A} a.
Arguments Raised {A} e.

Definition json_dumps (d : json) : raw := Encoded d.

Definition json_loads (r : raw) : outcome json :=
  match r with
  | Encoded d => Done d
  | Garbled _ => Raised JSONDecodeError
  end.

(** Lookup in the members of an object, or in the fields of a stream
    entry (both are Python dicts; a dict has each key once). *)
Fixpoint assoc {V : Type} (k : string) (l : list (string * V)) : option V :=
  match l with
  | [] => None
  | (k', v) :: l' => if String.eqb k k' then Some v else assoc k l'
  end.

(** [d.get(k)]: only a dict has the method. *)
Definition py_get (d : json) (k : string) : outcome json :=
  match d with
  | JObj ms => Done (default JNull (assoc k ms))
  | _ => Raised AttributeError
  end.

(** [d[k]] with a string key. *)
Definition py_item (d : json) (k : string) : outcome json :=
  match d with
  | JObj ms =>
      match assoc k ms with
      | Some v => Done v
      | None => Raised (KeyError k)
      end
  | _ => Raised TypeError
  end.

(** Truth value of a Python object. *)
Definition py_truthy (v : json) : bool :=
  match v with
  | JNull => false
  | JBool b => b
  | JNum q => negb (Qnum q =? 0)%Z
  | JStr s => negb (String.eqb s EmptyString)
  | JArr l => match l with [] => false | _ => true end
  | JObj l => match l with [] => false | _ => true end
  end.

(** [v < 0]: defined on numbers (and on [bool], a subclass of [int]). *)
Definition py_lt_zero (v : json) : outcome bool :=
  match v with
  | JNum q => Done (Qnum q <? 0)%Z
  | JBool _ => Done false
  | _ => Raised TypeError
  end.

(** [v == s] for a string literal [s]. *)
Definition py_eq_str (v : json) (s : string) : bool :=
  match v with
  | JStr s' => String.eqb s' s
  | _ => false
  end.

(** [int(x)] on a number: truncation towards zero. *)
Definition py_int (x : Q) : Z :=
  if (Qnum x <? 0)%Z then Qceiling x else Qfloor x.

(** ** The world: Redis streams, the log file, uuids and the clock *)

Definition fields : Type := list (string * raw).
Definition entry : Type := (nat * fields)%type.

Inductive effect : Type :=
| XAdd (stream : string) (id : nat) (fs : fields)
| FileAppend (path : string) (line : raw)
| Log (level : string) (msg : string).

Record world : Type := World {
  trace : list effect;          (* oldest first *)
  uuid_pool : nat -> string;    (* what the n-th [uuid.uuid4()] returns *)
  uuid_drawn : nat;
  now_ms : Z;                   (* [int(time.time() * 1000)] *)
  race_pool : nat -> nat;       (* how the n-th race between tasks ends *)
  race_drawn : nat
}.

Definition with_trace (w : world) (t : list effect) : world :=
  World t (uuid_pool w) (uuid_drawn w) (now_ms w) (race_pool w)
        (race_drawn w).

(** The entries of one stream, oldest first ([XRANGE name - +]). *)
Fixpoint xrange (name : string) (t : list effect) : list entry :=
  match t with
  | [] => []
  | XAdd s i fs :: t' =>
      if String.eqb s name then (i, fs) :: xrange name t' else xrange name t'
  | _ :: t' => xrange name t'
  end.

(** The id of the newest entry of a stream; 0 when it is empty. *)
Definition top_id (name : string) (t : list effect) : nat :=
  match last (xrange name t) with
  | Some (i, _) => i
  | None => 0
  end.

(** The cursor a consumer keeps in [last_id]: ["$"] or an entry id. *)
Inductive cursor : Type :=
| Tail
| At (id : nat).

(** The position a cursor denotes when [xread] is called. *)
Definition resolve (name : string) (c : cursor) (t : list effect) : nat :=
  match c with
  | Tail => top_id name t
  | At i => i
  end.

(** [xread(streams={name: pos}, count=n)]: the first [n] entries after
    [pos]. *)
Definition xread (name : string) (pos : nat) (n : nat) (t : list effect)
  : list entry :=
  take n (filter (fun e : entry => pos < e.1) (xrange name t)).

(** ** Programs *)

Definition prog (A : Type) : Type := world -> outcome A * world.

Definition ret {A : Type} (a : A) : prog A := fun w => (Done a, w).

Definition bind {A B : Type} (m : prog A) (k : A -> prog B) : prog B :=
  fun w =>
    match m w with
    | (Done a, w') => k a w'
    | (Raised e, w') => (Raised e, w')
    end.

Definition lift {A : Type} (o : outcome A) : prog A := fun w => (o, w).

Declare Scope prog_scope.
Delimit Scope prog_scope with prog.
Notation "x <- m ;; k" := (bind m (fun x => k))
  (at level 100, m at next level, right associativity) : prog_scope.
Notation "m ;; k" := (bind m (fun _ => k))
  (at level 100, right associativity) : prog_scope.
Open Scope prog_scope.

Definition emit (e : effect) : prog unit :=
  fun w => (Done tt, with_trace w (trace w ++ [e])).

(** [r.xadd(name, fs)]: the new entry gets an id above every id of the
    stream. *)
Definition xadd (name : string) (fs : fields) : prog unit :=
  fun w => emit (XAdd name (S (top_id name (trace w))) fs) w.

Definition log (level msg : string) : prog unit := emit (Log level msg).

Definition file_append (path : string) (line : raw) : prog unit :=
  emit (FileAppend path line).

Definition uuid4 : prog string :=
  fun w => (Done (uuid_pool w (uuid_drawn w)),
            World (trace w) (uuid_pool w) (S (uuid_drawn w)) (now_ms w)
                  (race_pool w) (race_drawn w)).

Definition time_ms : prog Z := fun w => (Done (now_ms w), w).

(** [asyncio.sleep(secs)]: at least [secs] seconds pass. *)
Definition sleep (secs : Q) : prog unit :=
  fun w => (Done tt,
            World (trace w) (uuid_pool w) (uuid_drawn w)
                  (now_ms w + Z.max 0 (Qfloor (secs * 1000)))%Z
                  (race_pool w) (race_drawn w)).

(** ** agent_runtime/agents.py *)

Definition PROPOSAL_STREAM : string := "agent.proposals".

(** A coroutine started as a task: what it does up to its first [await]
    on the network, and the rest of it, which runs when the reply is in
    ([None] when it ends without waiting). *)
Definition task : Type := prog (option (prog unit)).

(** [await] of a coroutine on its own: it runs from start to end. *)
Definition await (c : task) : prog unit :=
  rest <- c ;;
  match rest with
  | Some k => k
  | None => ret tt
  end.

(** [AgentInterface]: the two abstract methods, as coroutines. *)
Record agent : Type := Agent {
  agent_id : string;
  on_tick : json -> task;
  on_event : json -> prog unit
}.

Definition market_proposal (pid aid : string) (ts : Z) (symbol price : json)
  : json :=
  JObj [("proposal_id", JStr pid);
        ("agent_id", JStr aid);
        ("timestamp", JNum (inject_Z ts));
        ("type", JStr "trade");
        ("payload", JObj [("symbol", symbol); ("side", JStr "buy");
                          ("size", JNum (1 # 1000)); ("price", price)]);
        ("priority", JNum 5)].

Definition MarketAgent_on_tick (aid : string) (tick : json) : prog unit :=
  price <- lift (py_get tick "price") ;;
  symbol <- lift (py_get tick "symbol") ;;
  pid <- uuid4 ;;
  ts <- time_ms ;;
  let proposal := market_proposal pid aid ts symbol price in
  xadd PROPOSAL_STREAM [("data", json_dumps proposal)] ;;
  log "DEBUG" "MarketAgent proposed: {}".

(** The same coroutine as a task: everything up to [await self.r.xadd]
    is done when the task starts, the write and the log line are the
    rest. *)
Definition MarketAgent_on_tick_task (aid : string) (tick : json) : task :=
  price <- lift (py_get tick "price") ;;
  symbol <- lift (py_get tick "symbol") ;;
  pid <- uuid4 ;;
  ts <- time_ms ;;
  let proposal := market_proposal pid aid ts symbol price in
  ret (Some (xadd PROPOSAL_STREAM [("data", json_dumps proposal)] ;;
             log "DEBUG" "MarketAgent proposed: {}")).

Definition MarketAgent (aid : string) : agent :=
  Agent aid (MarketAgent_on_tick_task aid) (fun _ => ret tt).

Definition risk_proposal (pid aid : string) (ts : Z) (symbol : json) : json :=
  JObj [("proposal_id", JStr pid);
        ("agent_id", JStr aid);
        ("timestamp", JNum (inject_Z ts));
        ("type", JStr "halt");
        ("payload", JObj [("reason", JStr "price anomaly");
                          ("symbol", symbol)]);
        ("priority", JNum 10)].

(** [if price and price < 0:] evaluates the comparison only for a truthy
    price. *)
Definition RiskAgent_on_tick (aid : string) (tick : json) : prog unit :=
  price <- lift (py_get tick "price") ;;
  symbol <- lift (py_get tick "symbol") ;;
  anomaly <- (if py_truthy price then lift (py_lt_zero price) else ret false) ;;
  if anomaly : bool then
    pid <- uuid4 ;;
    ts <- time_ms ;;
    let proposal := risk_proposal pid aid ts symbol in
    xadd PROPOSAL_STREAM [("data", json_dumps proposal)] ;;
    log "DEBUG" "RiskAgent proposed: {}"
  else ret tt.

Definition RiskAgent_on_tick_task (aid : string) (tick : json) : task :=
  price <- lift (py_get tick "price") ;;
  symbol <- lift (py_get tick "symbol") ;;
  anomaly <- (if py_truthy price then lift (py_lt_zero price) else ret false) ;;
  if anomaly : bool then
    pid <- uuid4 ;;
    ts <- time_ms ;;
    let proposal := risk_proposal pid aid ts symbol in
    ret (Some (xadd PROPOSAL_STREAM [("data", json_dumps proposal)] ;;
               log "DEBUG" "RiskAgent proposed: {}"))
  else ret None.

Definition RiskAgent (aid : string) : agent :=
  Agent aid (RiskAgent_on_tick_task aid) (fun _ => ret tt).

(** ** The consumer loop shared by the three stream consumers

    Each of [start_manager], [governance_loop] and [execution_loop] is
    [while True: try: resp = xread(...); for entry in resp: body
    except Exception: log; sleep(1)].  [last_id] is a local variable that
    the body assigns entry by entry, so what was assigned before an
    exception stays assigned. *)

Fixpoint for_entries (body : entry -> cursor -> prog cursor)
    (es : list entry) (last_id : cursor) (w : world)
  : outcome unit * cursor * world :=
  match es with
  | [] => (Done tt, last_id, w)
  | e :: es' =>
      match body e last_id w with
      | (Done c, w') => for_entries body es' c w'
      | (Raised x, w') => (Raised x, last_id, w')
      end
  end.

(** Entries that other producers append to the consumed stream while the
    consumer is blocked in [xread]. *)
Definition arrive (name : string) (arrivals : list fields) (w : world)
  : world :=
  fold_left (fun w' fs => (xadd name fs w').2) arrivals w.

(** One turn of the [while True] loop: the cursor is resolved when [xread]
    is called, [arrivals] come in during the block (2000 ms at most), at
    most 10 entries are returned. *)
Definition poll (name : string) (body : entry -> cursor -> prog cursor)
    (errmsg : string) (arrivals : list fields) (last_id : cursor) (w : world)
  : cursor * world :=
  let pos := resolve name last_id (trace w) in
  let w1 := arrive name arrivals w in
  match xread name pos 10 (trace w1) with
  | [] => (last_id, (sleep (1 # 100) w1).2)
  | resp =>
      match for_entries body resp last_id w1 with
      | (Done _, c, w2) => (c, w2)
      | (Raised _, c, w2) => (c, ((log "ERROR" errmsg ;; sleep 1) w2).2)
      end
  end.

(** A finite prefix of the endless loop, one list of arrivals per turn. *)
Fixpoint run (name : string) (body : entry -> cursor -> prog cursor)
    (errmsg : string) (turns : list (list fields)) (last_id : cursor)
    (w : world) : cursor * world :=
  match turns with
  | [] => (last_id, w)
  | arrivals :: turns' =>
      let '(c, w') := poll name body errmsg arrivals last_id w in
      run name body errmsg turns' c w'
  end.

(** ** agent_runtime/agent_manager.py *)

Definition STREAM_NAME : string := "market.ticks".

Definition agents : list agent :=
  [MarketAgent "agent.market.1"; RiskAgent "agent.risk.1"].

(** Which of [n] pending replies comes in first: each agent has its own
    connection to Redis, so the order is not the program's to choose. *)
Definition race (n : nat) (w : world) : nat * world :=
  if n <=? 1 then (0, w)
  else (race_pool w (race_drawn w),
        World (trace w) (uuid_pool w) (uuid_drawn w) (now_ms w)
              (race_pool w) (S (race_drawn w))).

(** The [i]-th of the pending coroutines and the others (the first one
    when there is no [i]-th). *)
Definition pick {A : Type} (i : nat) (ks : list A) : option (A * list A) :=
  match ks !! i with
  | Some k => Some (k, delete i ks)
  | None =>
      match ks with
      | k :: ks' => Some (k, ks')
      | [] => None
      end
  end.

(** The tasks start in the order given; each runs up to its first
    [await].  What is returned: the coroutines that are now waiting, and
    the first exception raised so far. *)
Fixpoint start_all (cs : list task) (w : world)
  : list (prog unit) * option exn * world :=
  match cs with
  | [] => ([], None, w)
  | c :: cs' =>
      match c w with
      | (Done (Some k), w1) =>
          let '(ks, x, w2) := start_all cs' w1 in (k :: ks, x, w2)
      | (Done None, w1) => start_all cs' w1
      | (Raised e, w1) =>
          let '(ks, _, w2) := start_all cs' w1 in (ks, Some e, w2)
      end
  end.

(** The waiting coroutines run to their end, in the order in which
    their replies come in. *)
Fixpoint finish_all (fuel : nat) (ks : list (prog unit)) (w : world)
  : option exn * world :=
  match fuel with
  | 0 => (None, w)
  | S fuel' =>
      let '(i, w1) := race (length ks) w in
      match pick i ks with
      | None => (None, w1)
      | Some (k, ks') =>
          let '(o, w2) := k w1 in
          let '(x, w3) := finish_all fuel' ks' w2 in
          (match o with Raised e => Some e | Done _ => x end, w3)
      end
  end.

(** [await asyncio.gather] over the agents with the default
    [return_exceptions=False]: every coroutine is started as a task, none
    is cancelled when another fails, and the first exception raised by
    one of them is raised by the [await]. *)
Definition gather (cs : list task) : prog unit :=
  fun w =>
    let '(ks, x1, w1) := start_all cs w in
    let '(x2, w2) := finish_all (length ks) ks w1 in
    match x1, x2 with
    | Some e, _ => (Raised e, w2)
    | None, Some e => (Raised e, w2)
    | None, None => (Done tt, w2)
    end.

(** The body of [for entry_id, fields in entries] in [start_manager]. *)
Definition dispatch_entry (ags : list agent) (e : entry) (last_id : cursor)
  : prog cursor :=
  match assoc "data" e.2 with
  | Some r =>
      match json_loads r with
      | Raised _ =>
          log "WARNING" "Bad tick JSON: {}" ;;
          ret last_id                                   (* continue *)
      | Done doc =>
          gather (map (fun a => on_tick a doc) ags) ;;
          ret (At e.1)
      end
  | None => ret (At e.1)
  end.

Definition start_manager (turns : list (list fields)) (w : world)
  : cursor * world :=
  run STREAM_NAME (dispatch_entry agents) "Agent manager error: {}"
      turns Tail
      ((log "INFO" "Agent manager started, listening to {}") w).2.

(** ** governance/governance_engine.py *)

Definition EXEC_STREAM : string := "execution.actions".
Definition AUDIT_STREAM : string := "audit.events".

Definition approved_action (aid pid ts : json) : json :=
  JObj [("action_id", aid);
        ("proposal_id", pid);
        ("timestamp", ts);
        ("status", JStr "applied");
        ("result", JObj [("executed", JBool true);
                         ("info", JStr "auto-approved demo")])].

Definition rejected_action (aid pid ts : json) : json :=
  JObj [("action_id", aid);
        ("proposal_id", pid);
        ("timestamp", ts);
        ("status", JStr "rejected");
        ("result", JObj [("reason",
                          JStr "unsupported proposal type in demo")])].

Definition audit_about (event key : string) (subject : json) : json :=
  JObj [("event", JStr event); (key, subject)].

(** The body of [for entry_id, fields in entries] in [governance_loop]. *)
Definition evaluate_entry (e : entry) (last_id : cursor) : prog cursor :=
  match assoc "data" e.2 with
  | None => ret last_id                                 (* continue *)
  | Some r =>
      proposal <- lift (json_loads r) ;;
      ty <- lift (py_get proposal "type") ;;
      if py_eq_str ty "trade" then
        aid <- lift (py_item proposal "proposal_id") ;;
        pid <- lift (py_item proposal "proposal_id") ;;
        ts <- lift (py_item proposal "timestamp") ;;
        xadd EXEC_STREAM [("data", json_dumps (approved_action aid pid ts))] ;;
        xadd AUDIT_STREAM
          [("data", json_dumps (audit_about "proposal_approved" "proposal"
                                            proposal))] ;;
        _ <- lift (py_item proposal "proposal_id") ;;
        log "INFO" "Governance approved proposal {}" ;;
        ret (At e.1)
      else
        aid <- lift (py_item proposal "proposal_id") ;;
        pid <- lift (py_item proposal "proposal_id") ;;
        ts <- lift (py_item proposal "timestamp") ;;
        xadd EXEC_STREAM [("data", json_dumps (rejected_action aid pid ts))] ;;
        xadd AUDIT_STREAM
          [("data", json_dumps (audit_about "proposal_rejected" "proposal"
                                            proposal))] ;;
        ret (At e.1)
  end.

Definition governance_loop (turns : list (list fields)) (w : world)
  : cursor * world :=
  run PROPOSAL_STREAM evaluate_entry "Governance loop error: {}"
      turns Tail
      ((log "INFO" "Governance engine started, listening to {}") w).2.

(** ** execution/execution_engine.py *)

Definition LOGFILE : string := "execution.log".

(** The body of [for entry_id, fields in entries] in [execution_loop]. *)
Definition execute_entry (e : entry) (last_id : cursor) : prog cursor :=
  match assoc "data" e.2 with
  | None => ret last_id                                 (* continue *)
  | Some r =>
      action <- lift (json_loads r) ;;
      file_append LOGFILE (json_dumps action) ;;
      xadd AUDIT_STREAM
        [("data", json_dumps (audit_about "action_executed" "action"
                                          action))] ;;
      _ <- lift (py_get action "action_id") ;;
      log "INFO" "Executed action {}" ;;
      ret (At e.1)
  end.

Definition execution_loop (turns : list (list fields)) (w : world)
  : cursor * world :=
  run EXEC_STREAM execute_entry "Execution loop error: {}"
      turns Tail
      ((log "INFO" "Execution engine started, listening to {}") w).2.

(** ** market_feed/replay_player.py *)

(** A row as [iterrows] hands it to [publish_tick]: a Series.  [None]
    in [r_size] or [r_side]: the Series has no such label. *)
Record row : Type := Row {
  r_timestamp : Q;
  r_symbol : string;
  r_price : Q;
  r_size : option Q;
  r_side : option string
}.

(** The data frame read from the input file.  The columns [timestamp],
    [symbol] and [price] are there; [size] and [side] are columns of the
    whole frame or of none of its rows.  Every cell holds a value. *)
Record cells : Type := Cells {
  c_timestamp : Q;
  c_symbol : string;
  c_price : Q;
  c_size : Q;               (* read only when the frame has the column *)
  c_side : string
}.

Record frame : Type := Frame {
  has_size : bool;
  has_side : bool;
  frame_rows : list cells
}.

(** [df.iterrows()]: each row with the labels of the frame's columns. *)
Definition iterrows (df : frame) : list row :=
  map (fun c => Row (c_timestamp c) (c_symbol c) (c_price c)
                    (if has_size df then Some (c_size c) else None)
                    (if has_side df then Some (c_side c) else None))
      (frame_rows df).

Definition tick_doc (sid : string) (tick : row) : json :=
  JObj [("stream_id", JStr sid);
        ("timestamp", JNum (inject_Z (py_int (r_timestamp tick))));
        ("symbol", JStr (r_symbol tick));
        ("price", JNum (r_price tick));
        ("size", JNum (default 0%Q (r_size tick)));
        ("side", JStr (default "unknown" (r_side tick)));
        ("source", JStr "replay")].

Definition publish_tick (tick : row) : prog unit :=
  sid <- uuid4 ;;
  xadd STREAM_NAME [("data", json_dumps (tick_doc sid tick))].

(** [df.sort_values("timestamp")], as an insertion sort on the key.  The
    sort pandas uses by default is not stable: which of two rows with the
    same timestamp comes first is its choice, given here by [ties]. *)
Fixpoint insert_row (ties : cells -> cells -> bool) (r : cells)
    (l : list cells) : list cells :=
  match l with
  | [] => [r]
  | r' :: l' =>
      if Qle_bool (c_timestamp r) (c_timestamp r') then
        if Qle_bool (c_timestamp r') (c_timestamp r) then
          if ties r r' then r :: l else r' :: insert_row ties r l'
        else r :: l
      else r' :: insert_row ties r l'
  end.

Fixpoint sort_rows (ties : cells -> cells -> bool) (l : list cells)
  : list cells :=
  match l with
  | [] => []
  | r :: l' => insert_row ties r (sort_rows ties l')
  end.

Definition sort_values (ties : cells -> cells -> bool) (df : frame)
  : frame :=
  Frame (has_size df) (has_side df) (sort_rows ties (frame_rows df)).

(** [x / y] on floats. *)
Definition py_div (x y : Q) : outcome Q :=
  if Qeq_bool y 0 then Raised ZeroDivisionError else Done (x / y)%Q.

(** [max(a, b)]: the first of the largest. *)
Definition py_max (a b : Q) : Q := if Qle_bool b a then a else b.

(** [realtime=True]: sleep for the gap between the timestamps. *)
Fixpoint replay_realtime (speed : Q) (prev_ts : option Z) (df : list row)
  : prog unit :=
  match df with
  | [] => ret tt
  | r :: df' =>
      let ts := py_int (r_timestamp r) in
      match prev_ts with
      | Some p =>
          d <- lift (py_div (inject_Z (ts - p) / 1000) speed) ;;
          sleep d
      | None => ret tt
      end ;;
      publish_tick r ;;
      replay_realtime speed (Some ts) df'
  end.

(** [realtime=False]: a fixed interval between two ticks. *)
Fixpoint replay_paced (interval : Q) (df : list row) : prog unit :=
  match df with
  | [] => ret tt
  | r :: df' =>
      publish_tick r ;;
      sleep interval ;;
      replay_paced interval df'
  end.

(** [run_player], from the data frame on ([file] is what [pd.read_csv] or
    [pd.read_parquet] returned). *)
Definition run_player (ties : cells -> cells -> bool) (file : frame)
    (speed : Q) (realtime : bool) : prog unit :=
  log "INFO" "Loading ticks from {}" ;;
  let df := sort_values ties file in
  log "INFO" "Loaded {} ticks" ;;
  (if realtime then replay_realtime speed None (iterrows df)
   else
     q <- lift (py_div 1 speed) ;;
     replay_paced (py_max (1 # 1000) q) (iterrows df)) ;;
  log "INFO" "Replay finished".

(** ** api/main.py: the ConnectionManager *)

(** The manager's [active] set together with the sockets it talks to.  A
    WebSocket is an opaque handle; [send_text] on a closed one raises. *)
Record gateway : Type := Gateway {
  active : gset nat;
  closed : gset nat;
  inbox : gmap nat (list string);     (* what each peer has received *)
  sends : list nat                    (* the sockets tried, oldest first *)
}.

Definition connect (c : nat) (g : gateway) : gateway :=
  Gateway ({[c]} ∪ active g) (closed g) (inbox g) (sends g).

Definition disconnect (c : nat) (g : gateway) : gateway :=
  Gateway (active g ∖ {[c]}) (closed g) (inbox g) (sends g).

Definition received (c : nat) (g : gateway) : list string :=
  default [] (inbox g !! c).

Definition send_text (c : nat) (msg : string) (g : gateway)
  : outcome unit * gateway :=
  if decide (c ∈ closed g) then
    (Raised RuntimeError,
     Gateway (active g) (closed g) (inbox g) (sends g ++ [c]))
  else
    (Done tt,
     Gateway (active g) (closed g)
             (<[c := received c g ++ [msg]]> (inbox g)) (sends g ++ [c])).

(** What the websocket handlers do to the manager while [broadcast] is
    suspended in an [await]. *)
Inductive conn_op : Type :=
| Connect (c : nat)
| Disconnect (c : nat).

Definition others (ops : list conn_op) (g : gateway) : gateway :=
  fold_left (fun g' op =>
               match op with
               | Connect c => connect c g'
               | Disconnect c => disconnect c g'
               end) ops g.

(** [for ws in list(self.active): try: await ws.send_text(message)
    except Exception: to_remove.append(ws)].  [sched] gives, await by
    await, what the other handlers do meanwhile. *)
Fixpoint send_all (msg : string) (snapshot : list nat)
    (sched : list (list conn_op)) (to_remove : list nat) (g : gateway)
  : list nat * gateway :=
  match snapshot with
  | [] => (to_remove, g)
  | c :: rest =>
      let g1 := others (default [] (head sched)) g in
      match send_text c msg g1 with
      | (Done _, g2) => send_all msg rest (tail sched) to_remove g2
      | (Raised _, g2) => send_all msg rest (tail sched) (to_remove ++ [c]) g2
      end
  end.

Definition remove_all (to_remove : list nat) (g : gateway) : gateway :=
  fold_left (fun g' c => disconnect c g') to_remove g.

Definition broadcast (msg : string) (sched : list (list conn_op))
    (g : gateway) : outcome unit * gateway :=
  let snapshot := elements (active g) in
  let '(to_remove, g1) := send_all msg snapshot sched [] g in
  (Done tt, remove_all to_remove g1).

(** ** Observations used in the statements *)

(** The entries a step added to a stream. *)
Definition appended (name : string) (w w' : world) : list entry :=
  drop (length (xrange name (trace w))) (xrange name (trace w')).

(** A stream entry carrying one document under the field [data]. *)
Definition doc_entry (id : nat) (d : json) : entry :=
  (id, [("data", json_dumps d)]).

Definition is_log (ef : effect) : bool :=
  match ef with
  | Log _ _ => true
  | _ => false
  end.

(** How often a message was logged at a level. *)
Definition is_log_of (level msg : string) (ef : effect) : bool :=
  match ef with
  | Log l m => String.eqb l level && String.eqb m msg
  | _ => false
  end.

Definition logged (level msg : string) (w : world) : nat :=
  length (filter (fun ef => is_log_of level msg ef = true) (trace w)).


(** Is the entry the completion AuditEvent of the Action [aid]? *)
Definition is_completion_of (aid : string) (e : entry) : bool :=
  match assoc "data" e.2 with
  | Some (Encoded (JObj ms)) =>
      py_eq_str (default JNull (assoc "event" ms)) "action_executed"
      && match assoc "action" ms with
         | Some (JObj a) => py_eq_str (default JNull (assoc "action_id" a)) aid
         | _ => false
         end
  | _ => false
  end.

Definition completions (aid : string) (w : world) : nat :=
  length (filter (fun e => is_completion_of aid e = true)
                 (xrange AUDIT_STREAM (trace w))).

(** The Execution Applier handed the same entry [n] times. *)
Definition redeliver (n : nat) (e : entry) (w : world) : world :=
  Nat.iter n (fun w' => (execute_entry e Tail w').2) w.

(** [n] turns of a consumer loop during which nothing new arrives. *)
Definition idle_turns (n : nat) : list (list fields) := replicate n [].

(** What the Policy Evaluator adds to the trace for a proposal [p] that
    carries [pid] under [proposal_id] and [ts] under [timestamp]. *)
Definition evaluation_effects (approve : bool) (p pid ts : json)
    (t : list effect) : list effect :=
  let a := (if approve then approved_action else rejected_action) pid pid ts in
  let ev := if approve then "proposal_approved" else "proposal_rejected" in
  let x1 := XAdd EXEC_STREAM (S (top_id EXEC_STREAM t))
                 [("data", json_dumps a)] in
  let x2 := XAdd AUDIT_STREAM (S (top_id AUDIT_STREAM (t ++ [x1])))
                 [("data", json_dumps (audit_about ev "proposal" p))] in
  [x1; x2]
  ++ (if approve then [Log "INFO" "Governance approved proposal {}"] else []).



(** ** The specification's wording, where the code departs from it *)

(** The outcome the specification's wording gives for a proposal: the
    result of an approved Action is [{executed: true}], that of a rejected
    one is [{reason: "unsupported type"}]. *)
Definition evaluator_as_worded (p : json) (w : world) : Prop :=
  exists (w' : world) (i j : nat) (a : json) (ev : string),
    evaluate_entry (doc_entry 1 p) Tail w = (Done (At 1), w')
    /\ appended EXEC_STREAM w w' = [doc_entry i a]
    /\ appended AUDIT_STREAM w w' = [doc_entry j (audit_about ev "proposal" p)]
    /\ match py_get p "type" with
       | Done ty =>
           if py_eq_str ty "trade" then
             py_item a "status" = Done (JStr "applied")
             /\ py_item a "result" = Done (JObj [("executed", JBool true)])
             /\ ev = "proposal_approved"
           else
             py_item a "status" = Done (JStr "rejected")
             /\ py_item a "result"
                = Done (JObj [("reason", JStr "unsupported type")])
             /\ ev = "proposal_rejected"
       | Raised _ => False
       end.


(** The specification's idempotence target: handing the Execution Applier
    an entry a second time leaves the audit stream as the first time left
    it. *)
Definition applier_idempotent (e : entry) (w : world) : Prop :=
  xrange AUDIT_STREAM (trace (redeliver 2 e w))
  = xrange AUDIT_STREAM (trace (redeliver 1 e w)).

(** ** Example inputs *)

(** A world to run the examples in: the streams as given, uuids
    ["uuid-0"], ["uuid-1"], ... *)
Definition demo_world (t : list effect) : world :=
  World t (fun n => "uuid-" +:+ pretty n) 0 1700000000000 (fun _ => 0) 0.

Definition halt_members : list (string * json) :=
  [("proposal_id", JStr "p-1");
   ("agent_id", JStr "agent.risk.1");
   ("timestamp", JNum 1000);
   ("type", JStr "halt");
   ("payload", JObj [("reason", JStr "price anomaly"); ("symbol", JStr "X")]);
   ("priority", JNum 10)].

Definition demo_halt : json := JObj halt_members.

Definition trade_members : list (string * json) :=
  [("proposal_id", JStr "p-2");
   ("agent_id", JStr "agent.market.1");
   ("timestamp", JNum 1000);
   ("type", JStr "trade");
   ("payload", JObj [("symbol", JStr "X"); ("side", JStr "buy");
                     ("size", JNum (1 # 1000)); ("price", JNum 7)]);
   ("priority", JNum 5)].

Definition demo_trade : json := JObj trade_members.

(** The Action the Policy Evaluator writes for [demo_trade]. *)
Definition demo_action_members : list (string * json) :=
  [("action_id", JStr "p-2");
   ("proposal_id", JStr "p-2");
   ("timestamp", JNum 1000);
   ("status", JStr "applied");
   ("result", JObj [("executed", JBool true);
                    ("info", JStr "auto-approved demo")])].

(** Two ticks: one as the replay player writes them, one whose price is
    quoted (a JSON string). *)
Definition good_tick : json :=
  JObj [("stream_id", JStr "s-1"); ("timestamp", JNum 1000);
        ("symbol", JStr "X"); ("price", JNum 7); ("size", JNum 1);
        ("side", JStr "buy"); ("source", JStr "replay")].

Definition quoted_price_tick : json :=
  JObj [("stream_id", JStr "s-2"); ("timestamp", JNum 1001);
        ("symbol", JStr "X"); ("price", JStr "101.5"); ("size", JNum 1);
        ("side", JStr "buy"); ("source", JStr "feed")].

(** The tick stream with a quoted price in its second entry. *)
Definition quoted_price_ticks : list effect :=
  [XAdd STREAM_NAME 1 [("data", json_dumps good_tick)];
   XAdd STREAM_NAME 2 [("data", json_dumps quoted_price_tick)];
   XAdd STREAM_NAME 3 [("data", json_dumps good_tick)]].

(** The tick stream ending in an entry that is not JSON. *)
Definition garbled_ticks : list effect :=
  [XAdd STREAM_NAME 1 [("data", json_dumps good_tick)];
   XAdd STREAM_NAME 2 [("data", Garbled "{price: 7")]].

(** The proposal stream with an entry that is not JSON before a trade. *)
Definition garbled_proposals : list effect :=
  [XAdd PROPOSAL_STREAM 1 [("data", json_dumps demo_halt)];
   XAdd PROPOSAL_STREAM 2 [("data", Garbled "{type: trade")];
   XAdd PROPOSAL_STREAM 3 [("data", json_dumps demo_trade)]].

(** Three rows in increasing order of timestamp; the last two fall into
    the same millisecond.  The file has no [side] column. *)
Definition demo_frame : frame :=
  Frame true false
        [Cells (1000 # 1) "X" 7 1 EmptyString;
         Cells (15002 # 10) "X" (15 # 2) 3 EmptyString;
         Cells (15007 # 10) "X" (-1) 2 EmptyString].

(** A sort that leaves rows of equal timestamp in file order. *)
Definition file_order (a b : cells) : bool := true.

(** ** common/db_client.py: the agent registry and the reputation scores

    The tables are lists of rows, oldest first.  A [SELECT ... WHERE
    agent_id = :agent_id] followed by [fetchone()] yields the first
    matching row, an [UPDATE ... WHERE agent_id = :agent_id] changes every
    matching row.  The database is taken to be reachable, and a column
    to hold what is written to it: a score is read as the float it was
    stored as. *)

(** A row of [agents]: the columns [register_agent] names.  [None] in
    [ar_status] or [ar_last_seen] stands for the default of the schema. *)
Record agent_row : Type := AgentRow {
  ar_type : string;
  ar_config : option raw;
  ar_status : option string;
  ar_last_seen : option Z
}.

(** A row of [reputation_history]. *)
Record history_row : Type := HistoryRow {
  h_agent : string;
  h_old_score : Q;
  h_new_score : Q;
  h_delta : Q;
  h_reason : string
}.

Record db : Type := Db {
  agents_table : list (string * agent_row);
  agent_reputation : list (string * Q);
  reputation_history : list history_row;
  db_now : Z                                 (* [CURRENT_TIMESTAMP] *)
}.

(** [get_agent_reputation]: the score of the first row, if there is
    one. *)
Definition get_agent_reputation (agent : string) (d : db) : option Q :=
  assoc agent (agent_reputation d).

(** [INSERT INTO agent_reputation (agent_id, score) VALUES (:agent_id,
    100.0)]. *)
Definition init_reputation (agent : string) (d : db) : db :=
  Db (agents_table d) (agent_reputation d ++ [(agent, 100%Q)])
     (reputation_history d) (db_now d).

(** [UPDATE agent_reputation SET score = :new_score WHERE agent_id =
    :agent_id]. *)
Definition set_score (agent : string) (score : Q) (rows : list (string * Q))
  : list (string * Q) :=
  map (fun r : string * Q =>
         if String.eqb r.1 agent then (r.1, score) else r) rows.

(** [update_agent_reputation].  The scores are floats, which the
    rationals here stand for; [float_add] is [+] on two floats, the sum
    rounded to a float, of which nothing is assumed. *)
Definition update_agent_reputation (float_add : Q -> Q -> Q)
    (agent : string) (score_delta : Q) (reason : string) (d : db) : db :=
  let '(current, d1) :=
    match get_agent_reputation agent d with
    | Some score => (score, d)
    | None => (100%Q, init_reputation agent d)
    end in
  let old_score := current in
  let new_score := py_max 0 (float_add old_score score_delta) in
  Db (agents_table d1)
     (set_score agent new_score (agent_reputation d1))
     (reputation_history d1
      ++ [HistoryRow agent old_score new_score score_delta reason])
     (db_now d1).

(** [INSERT INTO agents ... ON CONFLICT (agent_id) DO UPDATE SET
    last_seen = CURRENT_TIMESTAMP, status = 'active']. *)
Definition upsert_agent (agent : string) (agent_type : string)
    (config : option raw) (d : db) : list (string * agent_row) :=
  match assoc agent (agents_table d) with
  | Some _ =>
      map (fun r : string * agent_row =>
             if String.eqb r.1 agent
             then (r.1, AgentRow (ar_type r.2) (ar_config r.2)
                                 (Some "active") (Some (db_now d)))
             else r)
          (agents_table d)
  | None =>
      agents_table d ++ [(agent, AgentRow agent_type config None None)]
  end.

(** [register_agent]; [config] is [None] or a dict, and
    [json.dumps(config) if config else None] is stored. *)
Definition register_agent (agent : string) (agent_type : string)
    (config : option json) (d : db) : db :=
  let stored :=
    match config with
    | Some c => if py_truthy c then Some (json_dumps c) else None
    | None => None
    end in
  let d1 := Db (upsert_agent agent agent_type stored d) (agent_reputation d)
               (reputation_history d) (db_now d) in
  match get_agent_reputation agent d1 with
  | Some _ => d1
  | None => init_reputation agent d1
  end.

Definition demo_db : db :=
  Db [] [("agent.market.1", 40%Q); ("agent.risk.1", 3%Q)] [] 0.

(** ** Further observations *)

(** The [proposal_id] of the proposal an entry carries, when the entry
    carries a JSON object that has a [proposal_id] and a [timestamp]. *)
Definition resolved_id (e : entry) : option json :=
  match assoc "data" e.2 with
  | Some (Encoded (JObj ms)) =>
      match assoc "proposal_id" ms, assoc "timestamp" ms with
      | Some pid, Some _ => Some pid
      | _, _ => None
      end
  | _ => None
  end.

(** The [action_id] member of the document an entry carries. *)
Definition action_id_of (e : entry) : option json :=
  match assoc "data" e.2 with
  | Some (Encoded (JObj ms)) => assoc "action_id" ms
  | _ => None
  end.

(** The lines appended to a file, oldest first. *)
Fixpoint file_lines (path : string) (t : list effect) : list raw :=
  match t with
  | [] => []
  | FileAppend p line :: t' =>
      if String.eqb p path then line :: file_lines path t'
      else file_lines path t'
  | _ :: t' => file_lines path t'
  end.

(** The ids of a stream grow from entry to entry, as Redis assigns
    them. *)
Definition stream_ordered (name : string) (t : list effect) : Prop :=
  StronglySorted lt (map fst (xrange name t)).

(** Where a consumer's cursor is after a batch that was handled to its
    end: at the last entry, or where it was for an empty batch. *)
Definition cursor_after (c : cursor) (es : list entry) : cursor :=
  match last es with
  | Some e => At e.1
  | None => c
  end.

(** The entries of a stream that lie after a position. *)
Definition unread (name : string) (pos : nat) (t : list effect)
  : list entry :=
  filter (fun e : entry => pos < e.1) (xrange name t).

(** Two entries of the proposal stream, both unread for a cursor at 0. *)
Definition pending_proposals : list effect :=
  [XAdd PROPOSAL_STREAM 1 [("data", json_dumps demo_halt)];
   XAdd PROPOSAL_STREAM 2 [("data", json_dumps demo_trade)]].

(** Rows in no particular order, two of them with the least
    timestamp. *)
Definition shuffled_frame : frame :=
  Frame true true
        [Cells (15007 # 10) "X" (-1) 2 "sell";
         Cells (1000 # 1) "X" 7 1 "buy";
         Cells (1000 # 1) "Y" (15 # 2) 3 "buy"].

(** A gateway with three registered connections, the second of which
    has a closed socket. *)
Definition demo_gateway : gateway :=
  Gateway {[1; 2; 3]} {[2]} ∅ [].

(** ** common/db_client.py: votes *)

(** A row of [votes]: the columns [insert_vote] names.  The column
    [proposal_id] holds a uuid, 128 bits. *)
Record vote_row : Type := VoteRow {
  v_proposal : N;
  v_agent : string;
  v_vote : string;
  v_weight : Q;
  v_timestamp : Z;
  v_reason : option string
}.

(** The rows in conflict with a vote of [agent] on the proposal with the
    uuid [proposal]. *)
Definition same_ballot (proposal : N) (agent : string) (r : vote_row)
  : bool :=
  N.eqb (v_proposal r) proposal && String.eqb (v_agent r) agent.

(** [insert_vote]: [INSERT INTO votes ... VALUES (CAST(:proposal_id AS
    uuid), ...) ON CONFLICT (proposal_id, agent_id) DO UPDATE SET vote =
    EXCLUDED.vote, weight = EXCLUDED.weight, reason = EXCLUDED.reason].
    [uuid_in] is the database's reading of a text as a uuid: [None] for a
    text that is not one, and the statement then raises and the table is
    as it was.  The table's other constraints are taken to hold. *)
Definition insert_vote (uuid_in : string -> option N)
    (proposal agent vote : string) (weight : Q) (timestamp : Z)
    (reason : option string) (votes : list vote_row)
  : outcome (list vote_row) :=
  match uuid_in proposal with
  | None => Raised DataError
  | Some u =>
      Done
        (if existsb (same_ballot u agent) votes then
           map (fun r =>
                  if same_ballot u agent r
                  then VoteRow (v_proposal r) (v_agent r) vote weight
                               (v_timestamp r) reason
                  else r) votes
         else votes ++ [VoteRow u agent vote weight timestamp reason])
  end.

(** A reading of uuids for the examples: it knows one uuid, written
    with and without hyphens, and takes no other text for a uuid. *)
Definition demo_uuid_in (s : string) : option N :=
  if String.eqb s "00000000-0000-0000-0000-000000000001" then Some 1%N
  else if String.eqb s "00000000000000000000000000000001" then Some 1%N
  else None.

Definition demo_votes : list vote_row :=
  [VoteRow 1 "agent.risk.1" "approve" 1 1000 None;
   VoteRow 1 "agent.market.1" "reject" 2 1001 (Some "too risky")].

(** * Properties *)

(** ** Streams as views of the trace *)

Lemma xrange_app (name : string) (t1 t2 : list effect) :
  xrange name (t1 ++ t2) = xrange name t1 ++ xrange name t2.
Proof.
  induction t1 as [|ef t1 IH]; simpl; [reflexivity|].
  destruct ef as [s i fs| |]; try apply IH.
  destruct (String.eqb s name); simpl; now rewrite IH.
Qed.

Lemma appended_suffix (name : string) (w w' : world) (sfx : list effect) :
  trace w' = trace w ++ sfx -> appended name w w' = xrange name sfx.
Proof.
  intros E. unfold appended. rewrite E, xrange_app.
  now rewrite drop_app_length.
Qed.

Lemma appended_with_trace (name : string) (w : world) (sfx : list effect) :
  appended name w (with_trace w (trace w ++ sfx)) = xrange name sfx.
Proof. now apply appended_suffix. Qed.

Lemma xrange_logs (name : string) (t : list effect) :
  forallb is_log t = true -> xrange name t = [].
Proof.
  induction t as [|ef t IH]; simpl; [reflexivity|].
  destruct ef; simpl; try discriminate. exact IH.
Qed.


(** Reduce [appended name w w'] when the trace of [w'] is syntactically
    the trace of [w] followed by the new effects. *)
Ltac appended_by_suffix :=
  unfold appended; cbn [trace with_trace];
  rewrite ?xrange_app, <- ?app_assoc, drop_app_length.

Lemma Qnum_neg (q : Q) : (q < 0)%Q <-> (Qnum q < 0)%Z.
Proof. unfold Qlt. simpl. lia. Qed.

Lemma Qnum_nonneg (q : Q) : (0 <= q)%Q <-> (0 <= Qnum q)%Z.
Proof. unfold Qle. simpl. lia. Qed.

(** ** The agents *)

(** C5. On every tick (a JSON object, whatever its members) MarketAgent
    appends exactly one entry to the proposal stream: a proposal of type
    ["trade"] with priority 5. *)
Theorem MarketAgent_emits_one_trade (aid : string)
    (tick : list (string * json)) (w : world) :
  exists (w' : world) (id : nat) (p : json),
    MarketAgent_on_tick aid (JObj tick) w = (Done tt, w')
    /\ appended PROPOSAL_STREAM w w' = [doc_entry id p]
    /\ p = market_proposal (uuid_pool w (uuid_drawn w)) aid (now_ms w)
             (default JNull (assoc "symbol" tick))
             (default JNull (assoc "price" tick))
    /\ py_item p "type" = Done (JStr "trade")
    /\ py_item p "priority" = Done (JNum 5).
Proof.
  eexists. exists (S (top_id PROPOSAL_STREAM (trace w))). eexists.
  split; [cbv [MarketAgent_on_tick bind lift py_get uuid4 time_ms xadd log
               emit]; reflexivity|].
  split; [|split; [reflexivity|split; reflexivity]].
  appended_by_suffix. reflexivity.
Qed.

(** C4. On a tick whose price is a negative number RiskAgent appends
    exactly one entry to the proposal stream, a proposal of type ["halt"]
    with priority 10; on a tick whose price is a number greater than or
    equal to zero it appends nothing. *)
Theorem RiskAgent_halt_iff_negative (aid : string)
    (tick : list (string * json)) (price : Q) (w : world) :
  assoc "price" tick = Some (JNum price) ->
  exists w' : world,
    RiskAgent_on_tick aid (JObj tick) w = (Done tt, w')
    /\ ((price < 0)%Q ->
        exists (id : nat) (p : json),
          appended PROPOSAL_STREAM w w' = [doc_entry id p]
          /\ p = risk_proposal (uuid_pool w (uuid_drawn w)) aid (now_ms w)
                   (default JNull (assoc "symbol" tick))
          /\ py_item p "type" = Done (JStr "halt")
          /\ py_item p "priority" = Done (JNum 10))
    /\ ((0 <= price)%Q -> appended PROPOSAL_STREAM w w' = []).
Proof.
  intros Hprice.
  unfold RiskAgent_on_tick, bind, lift, py_get. rewrite Hprice. simpl.
  destruct (Z.ltb_spec (Qnum price) 0) as [Hneg|Hpos].
  - assert (Hnz : (Qnum price =? 0)%Z = false) by (apply Z.eqb_neq; lia).
    rewrite Hnz. simpl.
    eexists. split; [reflexivity|]. split.
    + intros _. exists (S (top_id PROPOSAL_STREAM (trace w))). eexists.
      split; [|split; [reflexivity|split; reflexivity]].
      appended_by_suffix. reflexivity.
    + intros H. apply Qnum_nonneg in H. lia.
  - exists w. split.
    + destruct (Qnum price =? 0)%Z; reflexivity.
    + split.
      * intros H. apply Qnum_neg in H. lia.
      * intros _. unfold appended. apply drop_all.
Qed.

Lemma RiskAgent_halt_iff_negative_witness :
  (exists w' : world,
     RiskAgent_on_tick "agent.risk.1"
       (JObj [("symbol", JStr "X"); ("price", JNum (-1))]) (demo_world [])
     = (Done tt, w')
     /\ length (appended PROPOSAL_STREAM (demo_world []) w') = 1)
  /\ (exists w' : world,
        RiskAgent_on_tick "agent.risk.1"
          (JObj [("symbol", JStr "X"); ("price", JNum 2)]) (demo_world [])
        = (Done tt, w')
        /\ appended PROPOSAL_STREAM (demo_world []) w' = []).
Proof.
  split.
  - destruct (RiskAgent_halt_iff_negative "agent.risk.1"
                [("symbol", JStr "X"); ("price", JNum (-1))] (-1)
                (demo_world []) eq_refl) as (w' & Hrun & Hneg & _).
    exists w'. split; [exact Hrun|].
    destruct (Hneg ltac:(reflexivity)) as (id & p & Happ & _).
    now rewrite Happ.
  - destruct (RiskAgent_halt_iff_negative "agent.risk.1"
                [("symbol", JStr "X"); ("price", JNum 2)] 2
                (demo_world []) eq_refl) as (w' & Hrun & _ & Hpos).
    exists w'. split; [exact Hrun|].
    apply Hpos. discriminate.
Defined.

(** The agents' coroutines as tasks, awaited on their own, are the
    coroutines. *)
Lemma MarketAgent_task_awaited (aid : string) (tick : json) (w : world) :
  await (MarketAgent_on_tick_task aid tick) w = MarketAgent_on_tick aid tick w.
Proof.
  unfold await, MarketAgent_on_tick_task, MarketAgent_on_tick, bind, lift.
  destruct (py_get tick "price"); [|reflexivity].
  destruct (py_get tick "symbol"); reflexivity.
Qed.

Lemma RiskAgent_task_awaited (aid : string) (tick : json) (w : world) :
  await (RiskAgent_on_tick_task aid tick) w = RiskAgent_on_tick aid tick w.
Proof.
  unfold await, RiskAgent_on_tick_task, RiskAgent_on_tick, bind, lift.
  destruct (py_get tick "price") as [price|]; [|reflexivity].
  destruct (py_get tick "symbol"); [|reflexivity].
  destruct (py_truthy price); [|reflexivity].
  destruct (py_lt_zero price) as [[|]|]; reflexivity.
Qed.

(** ** The Policy Evaluator *)

(** A proposal that has its id and its timestamp is resolved: both
    records are written and the cursor moves to the entry. *)
Lemma evaluate_entry_resolved (e : entry) (proposal : list (string * json))
    (pid ts : json) (c : cursor) (w : world) :
  assoc "data" e.2 = Some (json_dumps (JObj proposal)) ->
  assoc "proposal_id" proposal = Some pid ->
  assoc "timestamp" proposal = Some ts ->
  evaluate_entry e c w
  = (Done (At e.1),
     with_trace w
       (trace w
        ++ evaluation_effects
             (py_eq_str (default JNull (assoc "type" proposal)) "trade")
             (JObj proposal) pid ts (trace w))).
Proof.
  intros Hdata Hpid Hts.
  unfold evaluate_entry. rewrite Hdata. simpl.
  cbv [bind lift py_get py_item].
  rewrite Hpid, Hts. unfold evaluation_effects.
  destruct (py_eq_str (default JNull (assoc "type" proposal)) "trade");
    cbv [xadd log emit ret with_trace trace uuid_pool uuid_drawn now_ms];
    rewrite <- ?app_assoc; reflexivity.
Qed.

Lemma top_id_other (name other : string) (t : list effect) (i : nat)
    (fs : fields) :
  String.eqb other name = false ->
  top_id name (t ++ [XAdd other i fs]) = top_id name t.
Proof.
  intros Hne. unfold top_id. rewrite xrange_app. simpl. rewrite Hne.
  now rewrite app_nil_r.
Qed.

Lemma evaluation_effects_exec (approve : bool) (p pid ts : json)
    (t : list effect) :
  xrange EXEC_STREAM (evaluation_effects approve p pid ts t)
  = [doc_entry (S (top_id EXEC_STREAM t))
       ((if approve then approved_action else rejected_action) pid pid ts)].
Proof. destruct approve; reflexivity. Qed.

Lemma evaluation_effects_audit (approve : bool) (p pid ts : json)
    (t : list effect) :
  xrange AUDIT_STREAM (evaluation_effects approve p pid ts t)
  = [doc_entry (S (top_id AUDIT_STREAM t))
       (audit_about
          (if approve then "proposal_approved" else "proposal_rejected")
          "proposal" p)].
Proof.
  unfold evaluation_effects. cbv zeta.
  rewrite top_id_other by reflexivity.
  destruct approve; reflexivity.
Qed.

(** C1, as worded: the result of the rejected Action is not
    [{reason: "unsupported type"}]. *)
Lemma evaluator_as_worded_fails :
  ~ evaluator_as_worded demo_halt (demo_world []).
Proof.
  intros (w' & i & j & a & ev & Hrun & Hexec & _ & Hdec).
  unfold demo_halt in Hrun.
  rewrite (evaluate_entry_resolved (doc_entry 1 (JObj halt_members))
             halt_members (JStr "p-1") (JNum 1000)) in Hrun by reflexivity.
  injection Hrun as <-.
  vm_compute in Hexec. injection Hexec as _ <-.
  cbn in Hdec. destruct Hdec as (_ & Hres & _). discriminate Hres.
Qed.

(** C1, amended.  For every proposal that carries a [proposal_id] and a
    [timestamp], the Policy Evaluator decides from the [type] member
    alone.  For type ["trade"] it appends exactly one Action with status
    ["applied"] and result [{executed: true, info: "auto-approved demo"}]
    and exactly one AuditEvent ["proposal_approved"]; for any other type
    (or none) exactly one Action with status ["rejected"] and result
    [{reason: "unsupported proposal type in demo"}] and exactly one
    AuditEvent ["proposal_rejected"]. *)
Theorem evaluator_decides_on_type (id : nat)
    (proposal : list (string * json)) (pid ts : json) (c : cursor)
    (w : world) :
  assoc "proposal_id" proposal = Some pid ->
  assoc "timestamp" proposal = Some ts ->
  let p := JObj proposal in
  let approve := py_eq_str (default JNull (assoc "type" proposal)) "trade" in
  exists (w' : world) (i j : nat) (a : json),
    evaluate_entry (doc_entry id p) c w = (Done (At id), w')
    /\ appended EXEC_STREAM w w' = [doc_entry i a]
    /\ appended AUDIT_STREAM w w'
       = [doc_entry j
            (audit_about
               (if approve then "proposal_approved" else "proposal_rejected")
               "proposal" p)]
    /\ py_item a "status"
       = Done (JStr (if approve then "applied" else "rejected"))
    /\ py_item a "result"
       = Done (if approve
               then JObj [("executed", JBool true);
                          ("info", JStr "auto-approved demo")]
               else JObj [("reason",
                           JStr "unsupported proposal type in demo")]).
Proof.
  intros Hpid Hts p approve.
  eexists. exists (S (top_id EXEC_STREAM (trace w))),
    (S (top_id AUDIT_STREAM (trace w))). eexists.
  split; [apply (evaluate_entry_resolved (doc_entry id (JObj proposal))
                  proposal pid ts c w eq_refl Hpid Hts)|].
  rewrite !appended_with_trace.
  rewrite evaluation_effects_exec, evaluation_effects_audit.
  fold approve. repeat split; destruct approve; reflexivity.
Qed.

Lemma evaluator_decides_on_type_witness :
  exists (w' : world) (i j : nat) (a : json),
    evaluate_entry (doc_entry 7 demo_trade) (At 6) (demo_world [])
    = (Done (At 7), w')
    /\ appended EXEC_STREAM (demo_world []) w' = [doc_entry i a]
    /\ appended AUDIT_STREAM (demo_world []) w'
       = [doc_entry j (audit_about "proposal_approved" "proposal" demo_trade)]
    /\ py_item a "status" = Done (JStr "applied")
    /\ py_item a "result"
       = Done (JObj [("executed", JBool true);
                     ("info", JStr "auto-approved demo")]).
Proof.
  exact (evaluator_decides_on_type 7 trade_members (JStr "p-2") (JNum 1000) (At 6)
           (demo_world []) eq_refl eq_refl).
Defined.

(** C10. The Action written for a proposal has the proposal's
    [proposal_id] as its [action_id] and as its [proposal_id], and the
    proposal's [timestamp] as its [timestamp], whatever the clock shows
    and whether the proposal is approved or rejected; no uuid is drawn. *)
Theorem action_copies_id_and_timestamp (id : nat)
    (proposal : list (string * json)) (pid ts : json) (c : cursor)
    (w : world) :
  assoc "proposal_id" proposal = Some pid ->
  assoc "timestamp" proposal = Some ts ->
  exists (w' : world) (i : nat) (a : json),
    evaluate_entry (doc_entry id (JObj proposal)) c w = (Done (At id), w')
    /\ appended EXEC_STREAM w w' = [doc_entry i a]
    /\ py_item a "action_id" = Done pid
    /\ py_item a "proposal_id" = Done pid
    /\ py_item a "timestamp" = Done ts
    /\ uuid_drawn w' = uuid_drawn w.
Proof.
  intros Hpid Hts.
  eexists. exists (S (top_id EXEC_STREAM (trace w))). eexists.
  split; [apply (evaluate_entry_resolved (doc_entry id (JObj proposal))
                  proposal pid ts c w eq_refl Hpid Hts)|].
  rewrite appended_with_trace, evaluation_effects_exec.
  repeat split;
    destruct (py_eq_str (default JNull (assoc "type" proposal)) "trade");
    reflexivity.
Qed.

Lemma action_copies_id_and_timestamp_witness :
  exists (w' : world) (i : nat) (a : json),
    evaluate_entry (doc_entry 3 demo_halt) (At 2) (demo_world [])
    = (Done (At 3), w')
    /\ appended EXEC_STREAM (demo_world []) w' = [doc_entry i a]
    /\ py_item a "action_id" = Done (JStr "p-1")
    /\ py_item a "proposal_id" = Done (JStr "p-1")
    /\ py_item a "timestamp" = Done (JNum 1000)
    /\ uuid_drawn w' = uuid_drawn (demo_world []).
Proof.
  exact (action_copies_id_and_timestamp 3 halt_members (JStr "p-1") (JNum 1000) (At 2)
           (demo_world []) eq_refl eq_refl).
Defined.

(** ** Write order: the record first, the AuditEvent after it *)

Lemma execute_entry_decoded (e : entry) (action : json) (c : cursor)
    (w : world) :
  assoc "data" e.2 = Some (json_dumps action) ->
  exists rest : list effect,
    forallb is_log rest = true
    /\ trace (execute_entry e c w).2
       = trace w
         ++ FileAppend LOGFILE (json_dumps action)
            :: XAdd AUDIT_STREAM (S (top_id AUDIT_STREAM (trace w)))
                 [("data", json_dumps
                             (audit_about "action_executed" "action" action))]
            :: rest.
Proof.
  intros Hdata. unfold execute_entry. rewrite Hdata. simpl.
  cbv [bind lift file_append xadd log emit ret].
  cbn [trace with_trace].
  assert (Htop : top_id AUDIT_STREAM
                   (trace w ++ [FileAppend LOGFILE (json_dumps action)])
                 = top_id AUDIT_STREAM (trace w)).
  { unfold top_id. rewrite xrange_app. simpl. now rewrite app_nil_r. }
  rewrite Htop.
  destruct (py_get action "action_id") as [v|x]; cbn [snd trace with_trace].
  - exists [Log "INFO" "Executed action {}"]. split; [reflexivity|].
    now rewrite <- !app_assoc.
  - exists []. split; [reflexivity|]. now rewrite <- !app_assoc.
Qed.

(** C9. For every entry that carries a proposal (a JSON object with a
    [proposal_id] and a [timestamp]) the Policy Evaluator writes the
    Action for that [proposal_id] first and the AuditEvent about the same
    proposal after it; for every other entry it writes nothing.  For
    every entry that carries a document the Execution Applier appends it
    to the log file first and writes the completion AuditEvent about it
    after that; for every other entry it does nothing.  What follows the
    AuditEvent is logging only. *)
Theorem audit_follows_record (e : entry) (c : cursor) (w : world) :
  (exists sfx : list effect,
     trace (evaluate_entry e c w).2 = trace w ++ sfx
     /\ match resolved_id e with
        | Some pid =>
            exists (i j : nat) (a p : json) (ev : string)
                   (rest : list effect),
              sfx = XAdd EXEC_STREAM i [("data", json_dumps a)]
                    :: XAdd AUDIT_STREAM j
                         [("data", json_dumps (audit_about ev "proposal" p))]
                    :: rest
              /\ forallb is_log rest = true
              /\ assoc "data" e.2 = Some (json_dumps p)
              /\ py_item a "proposal_id" = Done pid
              /\ py_item p "proposal_id" = Done pid
        | None => sfx = []
        end)
  /\ (exists sfx : list effect,
        trace (execute_entry e c w).2 = trace w ++ sfx
        /\ match assoc "data" e.2 with
           | Some (Encoded a) =>
               exists (j : nat) (rest : list effect),
                 sfx = FileAppend LOGFILE (json_dumps a)
                       :: XAdd AUDIT_STREAM j
                            [("data", json_dumps
                                        (audit_about "action_executed"
                                                     "action" a))]
                       :: rest
                 /\ forallb is_log rest = true
           | _ => sfx = []
           end).
Proof.
  split.
  - unfold resolved_id.
    destruct (assoc "data" e.2) as [[txt|d]|] eqn:Hdata.
    + exists []. split; [|reflexivity].
      unfold evaluate_entry. rewrite Hdata. now rewrite app_nil_r.
    + destruct d as [| | | | |ms];
        try (exists []; split; [|reflexivity];
             unfold evaluate_entry; rewrite Hdata; now rewrite app_nil_r).
      destruct (assoc "proposal_id" ms) as [pid|] eqn:Hpid;
        [destruct (assoc "timestamp" ms) as [ts|] eqn:Hts|].
      * rewrite (evaluate_entry_resolved e ms pid ts c w Hdata Hpid Hts).
        eexists. split; [reflexivity|].
        unfold evaluation_effects. cbv zeta.
        do 6 eexists. split; [reflexivity|].
        split; [|split; [reflexivity|split]].
        -- now destruct (py_eq_str _ _).
        -- now destruct (py_eq_str _ _).
        -- unfold py_item. now rewrite Hpid.
      * exists []. split; [|reflexivity].
        unfold evaluate_entry. rewrite Hdata. simpl.
        cbv [bind lift py_get py_item]. rewrite Hpid, Hts.
        destruct (py_eq_str _ _); now rewrite app_nil_r.
      * exists []. split; [|reflexivity].
        unfold evaluate_entry. rewrite Hdata. simpl.
        cbv [bind lift py_get py_item]. rewrite Hpid.
        destruct (py_eq_str _ _); now rewrite app_nil_r.
    + exists []. split; [|reflexivity].
      unfold evaluate_entry. rewrite Hdata. now rewrite app_nil_r.
  - destruct (assoc "data" e.2) as [[txt|d]|] eqn:Hdata.
    + exists []. split; [|reflexivity].
      unfold execute_entry. rewrite Hdata. now rewrite app_nil_r.
    + destruct (execute_entry_decoded e d c w Hdata) as (rest & Hlog & Htr).
      eexists. split; [exact Htr|].
      exists (S (top_id AUDIT_STREAM (trace w))), rest. now split.
    + exists []. split; [|reflexivity].
      unfold execute_entry. rewrite Hdata. now rewrite app_nil_r.
Qed.

(** ** The Execution Applier under redelivery *)

Lemma execute_entry_completes (e : entry) (action : list (string * json))
    (aid : string) (c : cursor) (w : world) :
  assoc "data" e.2 = Some (json_dumps (JObj action)) ->
  assoc "action_id" action = Some (JStr aid) ->
  completions aid (execute_entry e c w).2 = S (completions aid w).
Proof.
  intros Hdata Haid.
  destruct (execute_entry_decoded e (JObj action) c w Hdata)
    as (rest & Hlog & Htr).
  unfold completions. rewrite Htr, xrange_app. cbn [xrange].
  rewrite (xrange_logs _ rest Hlog).
  change (String.eqb AUDIT_STREAM AUDIT_STREAM) with true. cbv iota.
  rewrite filter_app, length_app, filter_cons_True.
  - cbn [filter list_filter length]. lia.
  - unfold is_completion_of. cbn. rewrite Haid. cbn.
    now rewrite String.eqb_refl.
Qed.

Lemma redeliver_S (n : nat) (e : entry) (w : world) :
  redeliver (S n) e w = (execute_entry e Tail (redeliver n e w)).2.
Proof. reflexivity. Qed.

(** C7, as worded: a second delivery of the same Action entry adds a
    second completion AuditEvent. *)
Lemma applier_redelivery_duplicates :
  completions "p-2"
    (redeliver 2 (doc_entry 4 (JObj demo_action_members)) (demo_world []))
  = 2
  /\ ~ applier_idempotent (doc_entry 4 (JObj demo_action_members))
         (demo_world []).
Proof.
  split; [reflexivity|].
  unfold applier_idempotent. vm_compute. discriminate.
Qed.

(** C7, amended.  The Execution Applier keeps no record of the Actions it
    has handled: every delivery of an Action entry appends one completion
    AuditEvent ["action_executed"] for it, so [n] deliveries of the same
    entry add [n] of them. *)
Theorem applier_completes_per_delivery (id : nat)
    (action : list (string * json)) (aid : string) (n : nat) (w : world) :
  assoc "action_id" action = Some (JStr aid) ->
  completions aid (redeliver n (doc_entry id (JObj action)) w)
  = completions aid w + n.
Proof.
  intros Haid. induction n as [|n IH].
  - simpl. lia.
  - rewrite redeliver_S.
    rewrite (execute_entry_completes _ action aid) by (reflexivity || exact Haid).
    rewrite IH. lia.
Qed.

Lemma applier_completes_per_delivery_witness :
  completions "p-2"
    (redeliver 3 (doc_entry 4 (JObj demo_action_members)) (demo_world []))
  = completions "p-2" (demo_world []) + 3.
Proof.
  exact (applier_completes_per_delivery 4 demo_action_members "p-2" 3
           (demo_world []) eq_refl).
Defined.

(** ** Consumers that do not get past an entry *)

Section IdleTurns.
Variables (name : string) (body : entry -> cursor -> prog cursor)
  (errmsg : string) (c : cursor).
Variable I : nat -> world -> Prop.

Hypothesis idle_turn :
  forall k w, I k w ->
    (poll name body errmsg [] c w).1 = c
    /\ I (S k) (poll name body errmsg [] c w).2.

(** An invariant that idle turns maintain, counted in turns, while the
    cursor stays where it is. *)
Lemma run_idle_invariant (n k : nat) (w : world) :
  I k w ->
  (run name body errmsg (idle_turns n) c w).1 = c
  /\ I (n + k) (run name body errmsg (idle_turns n) c w).2.
Proof.
  revert k w. induction n as [|n IH]; intros k w HI.
  - now split.
  - cbn [idle_turns replicate run].
    destruct (idle_turn k w HI) as [Hc HI'].
    destruct (poll name body errmsg [] c w) as [c' w'].
    cbn [fst snd] in Hc, HI'. subst c'.
    replace (S n + k) with (n + S k) by lia.
    now apply IH.
Qed.
End IdleTurns.

Lemma logged_snoc (level msg : string) (w : world) (t : list effect)
    (ef : effect) :
  trace w = t ++ [ef] ->
  logged level msg w
  = length (filter (fun ef' => is_log_of level msg ef' = true) t)
    + (if is_log_of level msg ef then 1 else 0).
Proof.
  intros E. unfold logged. rewrite E, filter_app, length_app.
  destruct (is_log_of level msg ef) eqn:Hef.
  - now rewrite filter_cons_True.
  - rewrite filter_cons_False; [reflexivity|]. now rewrite Hef.
Qed.

(** C2, at a tick whose price is a JSON string.  RiskAgent raises
    [TypeError] on it, [gather] raises it in [start_manager], and the
    cursor stays before the entry: on every later turn the entry is read
    and dispatched again (MarketAgent proposes once more each time) and
    the entry after it is never reached. *)
Theorem manager_stalls_on_failing_agent (n : nat) :
  (gather (map (fun a => on_tick a quoted_price_tick) agents)
          (demo_world quoted_price_ticks)).1 = Raised TypeError
  /\ (run STREAM_NAME (dispatch_entry agents) "Agent manager error: {}"
          (idle_turns n) (At 1) (demo_world quoted_price_ticks)).1 = At 1
  /\ length (xrange PROPOSAL_STREAM
               (trace (run STREAM_NAME (dispatch_entry agents)
                           "Agent manager error: {}" (idle_turns n) (At 1)
                           (demo_world quoted_price_ticks)).2)) = n
  /\ logged "ERROR" "Agent manager error: {}"
       (run STREAM_NAME (dispatch_entry agents) "Agent manager error: {}"
            (idle_turns n) (At 1) (demo_world quoted_price_ticks)).2 = n.
Proof.
  split; [reflexivity|].
  pose (I := fun (k : nat) (w : world) =>
               xrange STREAM_NAME (trace w)
               = xrange STREAM_NAME quoted_price_ticks
               /\ length (xrange PROPOSAL_STREAM (trace w)) = k
               /\ logged "ERROR" "Agent manager error: {}" w = k).
  destruct (run_idle_invariant STREAM_NAME (dispatch_entry agents)
              "Agent manager error: {}" (At 1) I) with (n := n) (k := 0)
              (w := demo_world quoted_price_ticks)
    as (Hc & _ & Hp & Hl).
  - intros k w (Hticks & Hprop & Hlog).
    unfold poll, resolve, arrive, xread. cbn [fold_left]. rewrite Hticks.
    replace (take 10 _) with (drop 1 (xrange STREAM_NAME quoted_price_ticks))
      by reflexivity.
    cbn -[Qfloor Z.max]. split; [reflexivity|].
    unfold I. cbn [trace]. split; [|split].
    + rewrite !xrange_app. cbn. now rewrite !app_nil_r.
    + rewrite !xrange_app, !length_app. cbn. lia.
    + erewrite logged_snoc by reflexivity.
      rewrite !filter_app, !length_app. cbn.
      repeat (case_decide; try discriminate). cbn.
      unfold logged in Hlog. lia.
  - unfold I. repeat split.
  - rewrite Nat.add_0_r in Hp, Hl. now repeat split.
Qed.

(** C3, at an entry that is not JSON.  In [start_manager] the [continue]
    after the warning skips [last_id = entry_id]: the cursor stays before
    the entry, which is read again and warned about on every turn.  In
    [governance_loop] [json.loads] is not guarded: the exception ends the
    batch, the cursor stays before the entry, the entry is read again on
    every turn and the proposal after it is never resolved. *)
Theorem garbled_entry_is_read_again (n : nat) :
  ((run STREAM_NAME (dispatch_entry agents) "Agent manager error: {}"
        (idle_turns n) (At 1) (demo_world garbled_ticks)).1 = At 1
   /\ logged "WARNING" "Bad tick JSON: {}"
        (run STREAM_NAME (dispatch_entry agents) "Agent manager error: {}"
             (idle_turns n) (At 1) (demo_world garbled_ticks)).2 = n)
  /\ ((run PROPOSAL_STREAM evaluate_entry "Governance loop error: {}"
           (idle_turns n) (At 1) (demo_world garbled_proposals)).1 = At 1
      /\ logged "ERROR" "Governance loop error: {}"
           (run PROPOSAL_STREAM evaluate_entry "Governance loop error: {}"
                (idle_turns n) (At 1) (demo_world garbled_proposals)).2 = n
      /\ xrange EXEC_STREAM
           (trace (run PROPOSAL_STREAM evaluate_entry
                       "Governance loop error: {}" (idle_turns n) (At 1)
                       (demo_world garbled_proposals)).2) = []).
Proof.
  split.
  - pose (I := fun (k : nat) (w : world) =>
                 xrange STREAM_NAME (trace w)
                 = xrange STREAM_NAME garbled_ticks
                 /\ logged "WARNING" "Bad tick JSON: {}" w = k).
    destruct (run_idle_invariant STREAM_NAME (dispatch_entry agents)
                "Agent manager error: {}" (At 1) I) with (n := n) (k := 0)
                (w := demo_world garbled_ticks)
      as (Hc & _ & Hl).
    + intros k w (Hticks & Hlog).
      unfold poll, resolve, arrive, xread. cbn [fold_left]. rewrite Hticks.
      replace (take 10 _) with (drop 1 (xrange STREAM_NAME garbled_ticks))
        by reflexivity.
      cbn -[Qfloor Z.max]. split; [reflexivity|].
      unfold I. cbn [trace with_trace snd]. split.
      * rewrite !xrange_app. cbn. now rewrite !app_nil_r.
      * erewrite logged_snoc by reflexivity. cbn.
        unfold logged in Hlog. lia.
    + unfold I. now split.
    + rewrite Nat.add_0_r in Hl. now split.
  - pose (I := fun (k : nat) (w : world) =>
                 xrange PROPOSAL_STREAM (trace w)
                 = xrange PROPOSAL_STREAM garbled_proposals
                 /\ logged "ERROR" "Governance loop error: {}" w = k
                 /\ xrange EXEC_STREAM (trace w) = []).
    destruct (run_idle_invariant PROPOSAL_STREAM evaluate_entry
                "Governance loop error: {}" (At 1) I) with (n := n) (k := 0)
                (w := demo_world garbled_proposals)
      as (Hc & _ & Hl & He).
    + intros k w (Hprops & Hlog & Hexec).
      unfold poll, resolve, arrive, xread. cbn [fold_left]. rewrite Hprops.
      replace (take 10 _)
        with (drop 1 (xrange PROPOSAL_STREAM garbled_proposals))
        by reflexivity.
      cbn -[Qfloor Z.max]. split; [reflexivity|].
      unfold I. cbn [trace with_trace snd]. split; [|split].
      * rewrite !xrange_app. cbn. now rewrite !app_nil_r.
      * erewrite logged_snoc by reflexivity. cbn.
        unfold logged in Hlog. lia.
      * rewrite !xrange_app, Hexec. reflexivity.
    + unfold I. now repeat split.
    + rewrite Nat.add_0_r in Hl. now repeat split.
Qed.

(** ** The replay player *)













Lemma xrange_snoc_log (name : string) (t : list effect) (level msg : string) :
  xrange name (t ++ [Log level msg]) = xrange name t.
Proof. rewrite xrange_app. simpl. apply app_nil_r. Qed.

Lemma top_id_snoc_log (name : string) (t : list effect) (level msg : string) :
  top_id name (t ++ [Log level msg]) = top_id name t.
Proof. unfold top_id. now rewrite xrange_snoc_log. Qed.





(** ** The Fan-out Gateway's broadcast *)

Lemma others_app (ops1 ops2 : list conn_op) (g : gateway) :
  others (ops1 ++ ops2) g = others ops2 (others ops1 g).
Proof. unfold others. apply fold_left_app. Qed.

(** The other handlers only touch the set of registered connections. *)
Lemma others_frame (ops : list conn_op) (g : gateway) :
  closed (others ops g) = closed g
  /\ inbox (others ops g) = inbox g
  /\ sends (others ops g) = sends g.
Proof.
  revert g. induction ops as [|op ops IH]; intros g; [now repeat split|].
  change (others (op :: ops) g) with (others ops (others [op] g)).
  destruct (IH (others [op] g)) as (Hc & Hi & Hs).
  rewrite Hc, Hi, Hs. destruct op; now repeat split.
Qed.

Lemma others_active_ext (ops : list conn_op) (g g' : gateway) :
  active g = active g' -> active (others ops g) = active (others ops g').
Proof.
  revert g g'. induction ops as [|op ops IH]; intros g g' E; [exact E|].
  change (others (op :: ops) g) with (others ops (others [op] g)).
  change (others (op :: ops) g') with (others ops (others [op] g')).
  apply IH. destruct op; simpl; now rewrite E.
Qed.

Lemma concat_take_S {A : Type} (n : nat) (ll : list (list A)) :
  concat (take (S n) ll) = default [] (head ll) ++ concat (take n (tail ll)).
Proof. destruct ll as [|l ll]; [now destruct n|reflexivity]. Qed.

Lemma received_send_text (c c' : nat) (msg : string) (g : gateway) :
  received c' (send_text c msg g).2
  = if decide (c' = c /\ c ∉ closed g) then received c g ++ [msg]
    else received c' g.
Proof.
  unfold send_text.
  destruct (decide (c ∈ closed g)) as [Hc|Hc]; cbn [snd].
  - rewrite decide_False by tauto. reflexivity.
  - unfold received at 1. cbn [inbox].
    destruct (decide (c' = c)) as [->|Hne].
    + rewrite lookup_insert_eq, decide_True by tauto. reflexivity.
    + rewrite lookup_insert_ne by congruence.
      rewrite decide_False by tauto. reflexivity.
Qed.

Lemma send_text_frame (c : nat) (msg : string) (g : gateway) :
  active (send_text c msg g).2 = active g
  /\ closed (send_text c msg g).2 = closed g
  /\ sends (send_text c msg g).2 = sends g ++ [c]
  /\ ((send_text c msg g).1 = Done tt <-> c ∉ closed g).
Proof.
  unfold send_text. destruct (decide (c ∈ closed g)); cbn; repeat split;
    intros; try tauto; discriminate.
Qed.

(** The pass over a snapshot, for any snapshot without repetition. *)
Lemma send_all_spec (msg : string) (l : list nat) :
  NoDup l ->
  forall (sched : list (list conn_op)) (tr : list nat) (g : gateway),
    (send_all msg l sched tr g).1
    = tr ++ filter (fun c => c ∈ closed g) l
    /\ sends (send_all msg l sched tr g).2 = sends g ++ l
    /\ closed (send_all msg l sched tr g).2 = closed g
    /\ active (send_all msg l sched tr g).2
       = active (others (concat (take (length l) sched)) g)
    /\ forall c,
         received c (send_all msg l sched tr g).2
         = if decide (c ∈ l /\ c ∉ closed g) then received c g ++ [msg]
           else received c g.
Proof.
  induction 1 as [|c l Hc Hl IH]; intros sched tr g.
  - cbn. rewrite !app_nil_r. repeat split.
  - cbn [send_all length]. rewrite concat_take_S, others_app.
    set (g1 := others (default [] (head sched)) g).
    destruct (others_frame (default [] (head sched)) g) as (Hc1 & Hi1 & Hs1).
    fold g1 in Hc1, Hi1, Hs1.
    destruct (send_text_frame c msg g1) as (Ha2 & Hc2 & Hs2 & Hok).
    pose proof (received_send_text c) as Hrecv.
    assert (Hrecv1 : forall c', received c' g1 = received c' g)
      by (intros c'; unfold received; now rewrite Hi1).
    destruct (send_text c msg g1) as [[[]|x] g2] eqn:Hsend; cbn [fst snd] in *.
    + (* the send went through *)
      assert (Hopen : c ∉ closed g) by (rewrite <- Hc1; now apply Hok).
      destruct (IH (tail sched) tr g2) as (Htr & Hsn & Hcl & Hac & Hrc).
      rewrite Htr, Hsn, Hcl, Hac, Hc2, Hc1, Hs2, Hs1.
      rewrite filter_cons_False by exact Hopen.
      rewrite <- app_assoc. repeat split.
      * apply others_active_ext. exact Ha2.
      * intros c'. rewrite Hrc, Hc2, Hc1.
        specialize (Hrecv c' msg g1). rewrite Hsend in Hrecv.
        cbn [snd] in Hrecv. rewrite Hrecv, Hc1, !Hrecv1.
        destruct (decide (c' = c)) as [->|Hne].
        -- rewrite decide_False by tauto.
           rewrite decide_True by tauto.
           rewrite decide_True; [reflexivity|]. split; [left|exact Hopen].
        -- rewrite (decide_False (P := c' = c /\ _)) by tauto.
           destruct (decide (c' ∈ l /\ c' ∉ closed g)) as [[Hin Hcl']|Hno].
           ++ rewrite decide_True; [reflexivity|]. split; [now right|exact Hcl'].
           ++ rewrite decide_False; [reflexivity|].
              rewrite elem_of_cons. tauto.
    + (* the send raised *)
      assert (Hshut : c ∈ closed g).
      { rewrite <- Hc1. destruct (decide (c ∈ closed g1)); [assumption|].
        assert (Raised x = Done tt) by now apply Hok. discriminate. }
      destruct (IH (tail sched) (tr ++ [c]) g2) as (Htr & Hsn & Hcl & Hac & Hrc).
      rewrite Htr, Hsn, Hcl, Hac, Hc2, Hc1, Hs2, Hs1.
      rewrite filter_cons_True by exact Hshut.
      rewrite <- !app_assoc. repeat split.
      * apply others_active_ext. exact Ha2.
      * intros c'. rewrite Hrc, Hc2, Hc1.
        specialize (Hrecv c' msg g1). rewrite Hsend in Hrecv.
        cbn [snd] in Hrecv. rewrite Hrecv, Hc1, !Hrecv1.
        rewrite (decide_False (P := c' = c /\ _)) by tauto.
        destruct (decide (c' ∈ l /\ c' ∉ closed g)) as [[Hin Hcl']|Hno].
        -- rewrite decide_True; [reflexivity|]. split; [now right|exact Hcl'].
        -- rewrite decide_False; [reflexivity|].
           rewrite elem_of_cons. intros [[->|Hin] Hcl']; tauto.
Qed.

Lemma remove_all_spec (tr : list nat) (g : gateway) :
  active (remove_all tr g) = active g ∖ list_to_set tr
  /\ closed (remove_all tr g) = closed g
  /\ inbox (remove_all tr g) = inbox g
  /\ sends (remove_all tr g) = sends g.
Proof.
  revert g. induction tr as [|c tr IH]; intros g.
  - cbn. repeat split. now rewrite difference_empty_L.
  - change (remove_all (c :: tr) g) with (remove_all tr (disconnect c g)).
    destruct (IH (disconnect c g)) as (Ha & Hc & Hi & Hs).
    rewrite Ha, Hc, Hi, Hs. cbn. repeat split.
    now rewrite difference_difference_l_L.
Qed.

(** C6. One pass of [broadcast], whatever the other handlers do to the
    connection set while it awaits the sends:
    - it does not raise;
    - the sockets it tries are exactly the connections registered when the
      pass began, each once;
    - up to any point of the pass the connection set is what the other
      handlers made of it: the pass itself removes nothing;
    - after the pass the connections whose send raised are removed;
    - every connection registered when the pass began whose socket is
      open has received the message, once, and nothing else was
      delivered. *)
Theorem broadcast_isolates_failures (msg : string)
    (sched : list (list conn_op)) (g : gateway) :
  let snapshot := elements (active g) in
  let failed := filter (fun c => c ∈ closed g) snapshot in
  (broadcast msg sched g).1 = Done tt
  /\ sends (broadcast msg sched g).2 = sends g ++ snapshot
  /\ (forall k : nat,
        active (send_all msg (take k snapshot) sched [] g).2
        = active (others (concat (take (length (take k snapshot)) sched)) g))
  /\ active (broadcast msg sched g).2
     = active (others (concat (take (length snapshot) sched)) g)
       ∖ list_to_set failed
  /\ forall c : nat,
       received c (broadcast msg sched g).2
       = if decide (c ∈ active g /\ c ∉ closed g)
         then received c g ++ [msg]
         else received c g.
Proof.
  intros snapshot failed.
  assert (Hnd : NoDup snapshot) by apply NoDup_elements.
  destruct (send_all_spec msg snapshot Hnd sched [] g)
    as (Htr & Hsn & Hcl & Hac & Hrc).
  unfold broadcast. fold snapshot.
  destruct (send_all msg snapshot sched [] g) as [tr g1].
  cbn [fst snd] in *.
  destruct (remove_all_spec tr g1) as (Ha' & Hc' & Hi' & Hs').
  split; [reflexivity|].
  split; [now rewrite Hs'|].
  split.
  { intros k.
    assert (Hndk : NoDup (take k snapshot))
      by (eapply sublist_NoDup; [exact Hnd|apply sublist_take]).
    now destruct (send_all_spec msg (take k snapshot) Hndk sched [] g)
      as (_ & _ & _ & Hack & _). }
  split; [now rewrite Ha', Hac, Htr|].
  intros c. unfold received at 1. rewrite Hi'. fold (received c g1).
  rewrite Hrc. subst snapshot.
  destruct (decide (c ∈ active g /\ c ∉ closed g)) as [[Hin Hop]|Hno].
  - rewrite decide_True; [reflexivity|]. split; [|exact Hop].
    now apply elem_of_elements.
  - rewrite decide_False; [reflexivity|].
    rewrite elem_of_elements. exact Hno.
Qed.

(** * Further properties of the code *)

(** ** The reputation scores *)

Lemma assoc_app {V : Type} (k : string) (l1 l2 : list (string * V)) :
  assoc k (l1 ++ l2)
  = match assoc k l1 with Some v => Some v | None => assoc k l2 end.
Proof.
  induction l1 as [|[k' v] l1 IH]; simpl; [reflexivity|].
  destruct (String.eqb k k'); [reflexivity|exact IH].
Qed.

Lemma assoc_set_score (agent other : string) (score : Q)
    (rows : list (string * Q)) :
  assoc other (set_score agent score rows)
  = if String.eqb other agent
    then match assoc other rows with Some _ => Some score | None => None end
    else assoc other rows.
Proof.
  induction rows as [|[k v] rows IH]; simpl.
  - now destruct (String.eqb other agent).
  - destruct (String.eqb k agent) eqn:Hk; simpl.
    + apply String.eqb_eq in Hk. subst k.
      destruct (String.eqb other agent) eqn:Ho; [reflexivity|exact IH].
    + destruct (String.eqb other k) eqn:Hok.
      * apply String.eqb_eq in Hok. subst k. now rewrite Hk.
      * exact IH.
Qed.

Lemma py_max_zero_nonneg (x : Q) : (0 <= py_max 0 x)%Q.
Proof.
  unfold py_max. destruct (Qle_bool x 0) eqn:E; [apply Qle_refl|].
  apply Qlt_le_weak, Qnot_le_lt. intros H.
  apply Qle_bool_iff in H. congruence.
Qed.

(** After [update_agent_reputation] the agent's score is the float sum
    of its old score (100 for an agent that had none) and the delta, or 0
    when that sum is not above 0: a score never becomes negative,
    whatever the rounding of the sum.  The scores of the other agents
    stay as they were, and exactly one row is appended to the history:
    the score before, the score after, the delta and the reason. *)
Theorem reputation_update_clamped (float_add : Q -> Q -> Q)
    (agent : string) (delta : Q) (reason : string) (d : db) :
  let old := default 100%Q (get_agent_reputation agent d) in
  let new := py_max 0 (float_add old delta) in
  let d' := update_agent_reputation float_add agent delta reason d in
  get_agent_reputation agent d' = Some new
  /\ (0 <= new)%Q
  /\ (forall other : string,
        other <> agent ->
        get_agent_reputation other d' = get_agent_reputation other d)
  /\ reputation_history d'
     = reputation_history d ++ [HistoryRow agent old new delta reason].
Proof.
  intros old new d'. subst old new d'.
  unfold update_agent_reputation, get_agent_reputation.
  split; [|split; [apply py_max_zero_nonneg|split]].
  - destruct (assoc agent (agent_reputation d)) as [s|] eqn:E;
      cbn [agent_reputation init_reputation default];
      rewrite assoc_set_score, String.eqb_refl.
    + now rewrite E.
    + rewrite assoc_app, E. simpl. now rewrite String.eqb_refl.
  - intros other Hne. apply String.eqb_neq in Hne.
    destruct (assoc agent (agent_reputation d)) as [s|] eqn:E;
      cbn [agent_reputation init_reputation];
      rewrite assoc_set_score, Hne; [reflexivity|].
    rewrite assoc_app. simpl. rewrite Hne.
    now destruct (assoc other (agent_reputation d)).
  - now destruct (assoc agent (agent_reputation d)).
Qed.

(** [register_agent] gives an agent without a score the score 100 and
    leaves an existing score alone, so registering again does not reset
    the reputation; it never touches the scores of other agents or the
    history. *)
Theorem register_agent_keeps_reputation (agent agent_type : string)
    (config : option json) (d : db) :
  let d' := register_agent agent agent_type config d in
  get_agent_reputation agent d'
  = Some (default 100%Q (get_agent_reputation agent d))
  /\ (forall other : string,
        other <> agent ->
        get_agent_reputation other d' = get_agent_reputation other d)
  /\ reputation_history d' = reputation_history d.
Proof.
  intros d'. subst d'. unfold register_agent, get_agent_reputation.
  cbn [agent_reputation].
  destruct (assoc agent (agent_reputation d)) as [s|] eqn:E;
    cbn [agent_reputation init_reputation reputation_history default].
  - rewrite E. now repeat split.
  - rewrite assoc_app, E. simpl. rewrite String.eqb_refl.
    repeat split. intros other Hne. apply String.eqb_neq in Hne.
    rewrite assoc_app. simpl. rewrite Hne.
    now destruct (assoc other (agent_reputation d)).
Qed.

Lemma assoc_touch (agent other : string) (now : Z)
    (rows : list (string * agent_row)) :
  assoc other
    (map (fun r : string * agent_row =>
            if String.eqb r.1 agent
            then (r.1, AgentRow (ar_type r.2) (ar_config r.2)
                                (Some "active") (Some now))
            else r) rows)
  = if String.eqb other agent
    then match assoc other rows with
         | Some r => Some (AgentRow (ar_type r) (ar_config r)
                                    (Some "active") (Some now))
         | None => None
         end
    else assoc other rows.
Proof.
  induction rows as [|[k v] rows IH]; simpl.
  - now destruct (String.eqb other agent).
  - destruct (String.eqb k agent) eqn:Hk; simpl.
    + apply String.eqb_eq in Hk. subst k.
      destruct (String.eqb other agent) eqn:Ho; [reflexivity|exact IH].
    + destruct (String.eqb other k) eqn:Hok.
      * apply String.eqb_eq in Hok. subst k. now rewrite Hk.
      * exact IH.
Qed.

(** Registering an agent that is registered already keeps the type and
    the configuration of the first registration, whatever is passed the
    second time; only [status] and [last_seen] change. *)
Theorem register_agent_again (agent type2 : string)
    (config2 : option json) (row : agent_row) (d : db) :
  assoc agent (agents_table d) = Some row ->
  assoc agent (agents_table (register_agent agent type2 config2 d))
  = Some (AgentRow (ar_type row) (ar_config row) (Some "active")
                   (Some (db_now d))).
Proof.
  intros Hrow. unfold register_agent.
  assert (Ht : forall d1,
             agents_table
               (match get_agent_reputation agent d1 with
                | Some _ => d1
                | None => init_reputation agent d1
                end) = agents_table d1).
  { intros d1. now destruct (get_agent_reputation agent d1). }
  rewrite Ht. cbn [agents_table]. unfold upsert_agent. rewrite Hrow.
  now rewrite assoc_touch, String.eqb_refl, Hrow.
Qed.

Lemma register_agent_again_witness :
  assoc "a" (agents_table
               (register_agent "a" "risk" (Some (JObj [("k", JNum 1)]))
                  (register_agent "a" "market" None demo_db)))
  = Some (AgentRow "market" None (Some "active") (Some 0%Z)).
Proof.
  exact (register_agent_again "a" "risk"
           (Some (JObj [("k", JNum 1)])) (AgentRow "market" None None None)
           (register_agent "a" "market" None demo_db) eq_refl).
Defined.

(** ** The agents on ticks of any shape *)

(** RiskAgent leaves the world as it is (no proposal, no uuid drawn)
    unless the tick is an object whose price is a negative number. *)
Theorem RiskAgent_writes_only_on_negative (aid : string) (tick : json)
    (w : world) :
  (RiskAgent_on_tick aid tick w).2 = w
  \/ exists (ms : list (string * json)) (q : Q),
       tick = JObj ms /\ assoc "price" ms = Some (JNum q) /\ (q < 0)%Q.
Proof.
  destruct tick as [| | | | |ms]; try (left; reflexivity).
  destruct (assoc "price" ms) as [price|] eqn:Hp.
  - destruct price as [|b|q|s|l|l];
      try (left; unfold RiskAgent_on_tick, bind, lift, py_get;
           rewrite Hp; reflexivity).
    + left. unfold RiskAgent_on_tick, bind, lift, py_get. rewrite Hp.
      now destruct b.
    + destruct (Z.ltb_spec (Qnum q) 0) as [Hneg|Hpos].
      * right. exists ms, q. repeat split; [exact Hp|now apply Qnum_neg].
      * left. unfold RiskAgent_on_tick, bind, lift, py_get. rewrite Hp.
        simpl. destruct (Qnum q =? 0)%Z; simpl; [reflexivity|].
        apply Z.ltb_ge in Hpos. now rewrite Hpos.
    + left. unfold RiskAgent_on_tick, bind, lift, py_get. rewrite Hp.
      simpl. now destruct (String.eqb s EmptyString).
    + left. unfold RiskAgent_on_tick, bind, lift, py_get. rewrite Hp.
      now destruct l.
    + left. unfold RiskAgent_on_tick, bind, lift, py_get. rewrite Hp.
      now destruct l.
  - left. unfold RiskAgent_on_tick, bind, lift, py_get. now rewrite Hp.
Qed.

(** A tick whose price is missing, [null], zero, [false] or empty is
    ignored by RiskAgent without an error. *)
Theorem RiskAgent_ignores_falsy_price (aid : string)
    (tick : list (string * json)) (w : world) :
  py_truthy (default JNull (assoc "price" tick)) = false ->
  RiskAgent_on_tick aid (JObj tick) w = (Done tt, w).
Proof.
  intros Hf. unfold RiskAgent_on_tick, bind, lift, py_get.
  now rewrite Hf.
Qed.

Lemma RiskAgent_ignores_falsy_price_witness :
  RiskAgent_on_tick "agent.risk.1" (JObj [("symbol", JStr "X")])
    (demo_world [])
  = (Done tt, demo_world []).
Proof.
  exact (RiskAgent_ignores_falsy_price "agent.risk.1" [("symbol", JStr "X")]
           (demo_world []) eq_refl).
Defined.

(** A tick whose price is a JSON string makes RiskAgent raise
    [TypeError] (the comparison with 0), unless the string is empty; in
    both cases nothing is written. *)
Theorem RiskAgent_quoted_price (aid : string) (tick : list (string * json))
    (s : string) (w : world) :
  assoc "price" tick = Some (JStr s) ->
  RiskAgent_on_tick aid (JObj tick) w
  = (if String.eqb s EmptyString then Done tt else Raised TypeError, w).
Proof.
  intros Hp. unfold RiskAgent_on_tick, bind, lift, py_get. rewrite Hp.
  simpl. now destruct (String.eqb s EmptyString).
Qed.

Lemma RiskAgent_quoted_price_witness :
  RiskAgent_on_tick "agent.risk.1" (JObj [("price", JStr "101.5")])
    (demo_world [])
  = (Raised TypeError, demo_world []).
Proof.
  exact (RiskAgent_quoted_price "agent.risk.1" [("price", JStr "101.5")]
           "101.5" (demo_world []) eq_refl).
Defined.

(** A tick that decodes to something other than a JSON object (a number,
    a string, an array, [null]) makes both agents raise: the dispatch of
    the entry ends in [AttributeError], nothing is written and no uuid is
    drawn. *)
Theorem dispatch_non_object_tick (id : nat) (d : json) (c : cursor)
    (w : world) :
  (forall ms, d <> JObj ms) ->
  dispatch_entry agents (doc_entry id d) c w = (Raised AttributeError, w).
Proof.
  intros Hno. destruct d as [| | | | |ms]; try reflexivity.
  now destruct (Hno ms).
Qed.

Lemma dispatch_non_object_tick_witness :
  dispatch_entry agents (doc_entry 5 (JArr [JNum 1; JNum 2])) (At 4)
    (demo_world [])
  = (Raised AttributeError, demo_world []).
Proof.
  apply dispatch_non_object_tick. discriminate.
Defined.




(** ** The consumers on entries of any shape *)

(** An entry without a [data] field is passed over by all three
    consumers without an effect; the dispatcher moves its cursor to it,
    the Policy Evaluator and the Execution Applier leave their cursor
    where it was. *)
Theorem entry_without_data (ags : list agent) (e : entry) (c : cursor)
    (w : world) :
  assoc "data" e.2 = None ->
  dispatch_entry ags e c w = (Done (At e.1), w)
  /\ evaluate_entry e c w = (Done c, w)
  /\ execute_entry e c w = (Done c, w).
Proof.
  intros Hd. unfold dispatch_entry, evaluate_entry, execute_entry.
  rewrite Hd. now repeat split.
Qed.

Lemma entry_without_data_witness :
  dispatch_entry agents (3, [("note", Garbled "hello")]) (At 2)
    (demo_world [])
  = (Done (At 3), demo_world [])
  /\ evaluate_entry (3, [("note", Garbled "hello")]) (At 2) (demo_world [])
     = (Done (At 2), demo_world [])
  /\ execute_entry (3, [("note", Garbled "hello")]) (At 2) (demo_world [])
     = (Done (At 2), demo_world []).
Proof.
  exact (entry_without_data agents (3, [("note", Garbled "hello")]) (At 2)
           (demo_world []) eq_refl).
Defined.

(** A proposal object without [proposal_id], or with it but without
    [timestamp], makes the Policy Evaluator raise [KeyError] for that key,
    whatever its type; neither the Action nor the AuditEvent is written. *)
Theorem evaluate_entry_missing_key (e : entry)
    (proposal : list (string * json)) (c : cursor) (w : world) :
  assoc "data" e.2 = Some (json_dumps (JObj proposal)) ->
  assoc "proposal_id" proposal = None \/ assoc "timestamp" proposal = None ->
  evaluate_entry e c w
  = (Raised (KeyError (match assoc "proposal_id" proposal with
                       | Some _ => "timestamp"
                       | None => "proposal_id"
                       end)), w).
Proof.
  intros Hd Hmiss. unfold evaluate_entry. rewrite Hd. simpl.
  cbv [bind lift py_get py_item].
  destruct (assoc "proposal_id" proposal) as [pid|].
  - destruct Hmiss as [Hm|Hm]; [discriminate|]. rewrite Hm.
    now destruct (py_eq_str _ _).
  - now destruct (py_eq_str _ _).
Qed.

Lemma evaluate_entry_missing_key_witness :
  evaluate_entry (doc_entry 2 (JObj [("type", JStr "trade")])) (At 1)
    (demo_world [])
  = (Raised (KeyError "proposal_id"), demo_world []).
Proof.
  exact (evaluate_entry_missing_key
           (doc_entry 2 (JObj [("type", JStr "trade")]))
           [("type", JStr "trade")] (At 1) (demo_world []) eq_refl
           (or_introl eq_refl)).
Defined.

(** An Action entry whose document is not a JSON object is still
    applied: the line is appended to the log file and the completion
    AuditEvent is written; only then [action.get] raises
    [AttributeError], so the cursor does not move to the entry. *)
Theorem execute_non_object (e : entry) (d : json) (c : cursor) (w : world) :
  assoc "data" e.2 = Some (json_dumps d) ->
  (forall ms, d <> JObj ms) ->
  execute_entry e c w
  = (Raised AttributeError,
     with_trace w
       (trace w
        ++ [FileAppend LOGFILE (json_dumps d);
            XAdd AUDIT_STREAM (S (top_id AUDIT_STREAM (trace w)))
              [("data", json_dumps
                          (audit_about "action_executed" "action" d))]])).
Proof.
  intros Hd Hno. unfold execute_entry. rewrite Hd. simpl.
  cbv [bind lift file_append xadd log emit ret].
  cbn [trace with_trace uuid_pool uuid_drawn now_ms].
  assert (Htop : top_id AUDIT_STREAM
                   (trace w ++ [FileAppend LOGFILE (json_dumps d)])
                 = top_id AUDIT_STREAM (trace w)).
  { unfold top_id. rewrite xrange_app. simpl. now rewrite app_nil_r. }
  rewrite Htop.
  destruct d as [| | | | |ms]; try (now destruct (Hno ms));
    cbn; unfold with_trace; cbn; now rewrite <- app_assoc.
Qed.

Lemma execute_non_object_witness :
  (execute_entry (doc_entry 6 (JNum 42)) (At 5) (demo_world [])).1
  = Raised AttributeError
  /\ file_lines LOGFILE
       (trace (execute_entry (doc_entry 6 (JNum 42)) (At 5)
                 (demo_world [])).2)
     = [json_dumps (JNum 42)].
Proof.
  rewrite (execute_non_object (doc_entry 6 (JNum 42)) (JNum 42) (At 5)
             (demo_world []) eq_refl); [|discriminate].
  split; reflexivity.
Defined.

(** ** Batches *)

(** Handling a batch is handling its first part and then, if that went
    through, the rest from the cursor and the world reached. *)
Lemma for_entries_app (body : entry -> cursor -> prog cursor)
    (es1 es2 : list entry) (c : cursor) (w : world) :
  for_entries body (es1 ++ es2) c w
  = match for_entries body es1 c w with
    | (Done _, c1, w1) => for_entries body es2 c1 w1
    | (Raised x, c1, w1) => (Raised x, c1, w1)
    end.
Proof.
  revert c w. induction es1 as [|e es1 IH]; intros c w; [reflexivity|].
  simpl. destruct (body e c w) as [[c1|x] w1]; [apply IH|reflexivity].
Qed.

Lemma cursor_after_cons (c : cursor) (e : entry) (es : list entry) :
  cursor_after c (e :: es) = cursor_after (At e.1) es.
Proof. unfold cursor_after. rewrite last_cons. now destruct (last es). Qed.

Lemma resolved_id_inv (e : entry) (pid : json) :
  resolved_id e = Some pid ->
  exists (ms : list (string * json)) (ts : json),
    assoc "data" e.2 = Some (json_dumps (JObj ms))
    /\ assoc "proposal_id" ms = Some pid
    /\ assoc "timestamp" ms = Some ts.
Proof.
  unfold resolved_id.
  destruct (assoc "data" e.2) as [[txt|[| | | | |ms]]|] eqn:Hd;
    try discriminate.
  destruct (assoc "proposal_id" ms) as [p|] eqn:Hp; [|discriminate].
  destruct (assoc "timestamp" ms) as [ts|] eqn:Ht; [|discriminate].
  intros [= <-]. now exists ms, ts.
Qed.

(** What the Policy Evaluator does to a batch of proposals that all have
    their id and timestamp. *)
Lemma evaluator_batch_effects (es : list entry) :
  Forall (fun e => is_Some (resolved_id e)) es ->
  forall (c : cursor) (w : world),
    exists sfx : list effect,
      for_entries evaluate_entry es c w
      = (Done tt, cursor_after c es, with_trace w (trace w ++ sfx))
      /\ map action_id_of (xrange EXEC_STREAM sfx) = map resolved_id es
      /\ length (xrange AUDIT_STREAM sfx) = length es
      /\ xrange PROPOSAL_STREAM sfx = [].
Proof.
  induction 1 as [|e es [pid Hpid] Hes IH]; intros c w.
  - exists []. unfold with_trace. rewrite app_nil_r. now destruct w.
  - destruct (resolved_id_inv e pid Hpid) as (ms & ts & Hd & Hp & Ht).
    cbn [for_entries].
    rewrite (evaluate_entry_resolved e ms pid ts c w Hd Hp Ht).
    set (eff := evaluation_effects _ _ _ _ _).
    destruct (IH (At e.1) (with_trace w (trace w ++ eff)))
      as (sfx & Hrun & Hex & Hau & Hpr).
    exists (eff ++ sfx). rewrite Hrun, cursor_after_cons.
    cbn [trace with_trace]. unfold with_trace at 1.
    cbn [uuid_pool uuid_drawn now_ms with_trace].
    rewrite <- app_assoc. split; [reflexivity|].
    rewrite !xrange_app, map_app, length_app, Hex, Hau, Hpr.
    subst eff. rewrite evaluation_effects_exec, evaluation_effects_audit.
    cbn [map length]. rewrite Hpid. repeat split.
    + f_equal. now destruct (py_eq_str _ _).
    + unfold evaluation_effects. now destruct (py_eq_str _ _).
Qed.

(** A batch of proposals that all have their id and timestamp is
    resolved to its end: the cursor is at the last entry, the Actions
    written are one per proposal, in the order of the proposals and with
    their ids, and as many AuditEvents are written. *)
Theorem evaluator_batch (es : list entry) (c : cursor) (w : world) :
  Forall (fun e => is_Some (resolved_id e)) es ->
  exists w' : world,
    for_entries evaluate_entry es c w = (Done tt, cursor_after c es, w')
    /\ map action_id_of (appended EXEC_STREAM w w') = map resolved_id es
    /\ length (appended AUDIT_STREAM w w') = length es.
Proof.
  intros Hes.
  destruct (evaluator_batch_effects es Hes c w) as (sfx & Hrun & Hex & Hau & _).
  eexists. split; [exact Hrun|].
  now rewrite !appended_with_trace.
Qed.

Lemma evaluator_batch_witness :
  exists w' : world,
    for_entries evaluate_entry [doc_entry 1 demo_halt; doc_entry 2 demo_trade]
      Tail (demo_world [])
    = (Done tt, At 2, w')
    /\ map action_id_of (appended EXEC_STREAM (demo_world []) w')
       = [Some (JStr "p-1"); Some (JStr "p-2")]
    /\ length (appended AUDIT_STREAM (demo_world []) w') = 2.
Proof.
  apply (evaluator_batch [doc_entry 1 demo_halt; doc_entry 2 demo_trade]
           Tail (demo_world [])).
  repeat constructor; eexists; reflexivity.
Defined.

(** A batch cut short: when an entry that is not JSON follows proposals
    that have their id and timestamp, those are resolved, the cursor is
    at the last of them, the batch ends in [JSONDecodeError] and nothing
    is written for the entries after the bad one. *)
Theorem evaluator_batch_cut (good rest : list entry) (bad : entry)
    (text : string) (c : cursor) (w : world) :
  Forall (fun e => is_Some (resolved_id e)) good ->
  assoc "data" bad.2 = Some (Garbled text) ->
  exists w' : world,
    for_entries evaluate_entry (good ++ bad :: rest) c w
    = (Raised JSONDecodeError, cursor_after c good, w')
    /\ map action_id_of (appended EXEC_STREAM w w') = map resolved_id good
    /\ length (appended AUDIT_STREAM w w') = length good.
Proof.
  intros Hgood Hbad.
  destruct (evaluator_batch_effects good Hgood c w)
    as (sfx & Hrun & Hex & Hau & _).
  eexists. rewrite for_entries_app, Hrun. cbn [for_entries].
  unfold evaluate_entry at 1. rewrite Hbad. cbn.
  split; [reflexivity|]. now rewrite !appended_with_trace.
Qed.

Lemma evaluator_batch_cut_witness :
  exists w' : world,
    for_entries evaluate_entry
      ([doc_entry 1 demo_halt] ++ (2, [("data", Garbled "{")])
       :: [doc_entry 3 demo_trade]) Tail (demo_world [])
    = (Raised JSONDecodeError, At 1, w')
    /\ map action_id_of (appended EXEC_STREAM (demo_world []) w')
       = [Some (JStr "p-1")]
    /\ length (appended AUDIT_STREAM (demo_world []) w') = 1.
Proof.
  apply (evaluator_batch_cut [doc_entry 1 demo_halt] [doc_entry 3 demo_trade]
           (2, [("data", Garbled "{")]) "{" Tail (demo_world [])).
  - repeat constructor; eexists; reflexivity.
  - reflexivity.
Defined.

(** ** From a proposal to its execution *)

Lemma file_lines_app (path : string) (t1 t2 : list effect) :
  file_lines path (t1 ++ t2) = file_lines path t1 ++ file_lines path t2.
Proof.
  induction t1 as [|ef t1 IH]; simpl; [reflexivity|].
  destruct ef as [| p line |]; try apply IH.
  destruct (String.eqb p path); simpl; now rewrite IH.
Qed.

(** The Execution Applier does not look at the status of an Action.  A
    proposal that the Policy Evaluator resolves, approved or rejected,
    leaves one Action entry; handing that entry to the Execution Applier
    appends the Action to the log file and adds one completion AuditEvent
    for it. *)
Theorem rejected_actions_are_executed_too (id : nat)
    (proposal : list (string * json)) (pid : string) (ts : json)
    (c c' : cursor) (w : world) :
  assoc "proposal_id" proposal = Some (JStr pid) ->
  assoc "timestamp" proposal = Some ts ->
  let approve := py_eq_str (default JNull (assoc "type" proposal)) "trade" in
  exists (w1 w2 : world) (i : nat) (a : json),
    evaluate_entry (doc_entry id (JObj proposal)) c w = (Done (At id), w1)
    /\ appended EXEC_STREAM w w1 = [doc_entry i a]
    /\ py_item a "status"
       = Done (JStr (if approve then "applied" else "rejected"))
    /\ execute_entry (doc_entry i a) c' w1 = (Done (At i), w2)
    /\ file_lines LOGFILE (trace w2)
       = file_lines LOGFILE (trace w) ++ [json_dumps a]
    /\ completions pid w2 = S (completions pid w).
Proof.
  intros Hpid Hts approve.
  pose proof (evaluate_entry_resolved (doc_entry id (JObj proposal))
                proposal (JStr pid) ts c w eq_refl Hpid Hts) as Hrun.
  fold approve in Hrun.
  set (a := (if approve then approved_action else rejected_action)
              (JStr pid) (JStr pid) ts).
  set (w1 := with_trace w _) in Hrun.
  assert (Ha : exists ms, a = JObj ms /\ assoc "action_id" ms = Some (JStr pid)).
  { subst a. destruct approve; eexists; split; reflexivity. }
  destruct Ha as (ms & Hams & Haid).
  assert (Hc1 : completions pid w1 = completions pid w).
  { unfold completions. subst w1. cbn [trace with_trace].
    rewrite xrange_app, evaluation_effects_audit, filter_app, length_app.
    rewrite filter_cons_False; [cbn; lia|].
    unfold is_completion_of. cbn. now destruct approve. }
  exists w1, (execute_entry (doc_entry (S (top_id EXEC_STREAM (trace w))) a)
                c' w1).2,
    (S (top_id EXEC_STREAM (trace w))), a.
  split; [exact Hrun|].
  split; [subst w1 a; now rewrite appended_with_trace,
                               evaluation_effects_exec|].
  split; [subst a; now destruct approve|].
  split; [|split].
  - rewrite Hams. reflexivity.
  - destruct (execute_entry_decoded
                (doc_entry (S (top_id EXEC_STREAM (trace w))) a) a c' w1
                eq_refl) as (rest & Hlog & Htr).
    rewrite Htr, file_lines_app. subst w1. cbn [trace with_trace].
    rewrite file_lines_app. cbn [file_lines].
    change (String.eqb LOGFILE LOGFILE) with true. cbv iota.
    assert (Hnone : forall t, forallb is_log t = true ->
                              file_lines LOGFILE t = []).
    { induction t as [|ef t IH]; [reflexivity|].
      destruct ef; simpl; try discriminate. exact IH. }
    rewrite (Hnone rest Hlog).
    assert (Hev : file_lines LOGFILE
                    (evaluation_effects approve (JObj proposal) (JStr pid)
                       ts (trace w)) = []).
    { unfold evaluation_effects. now destruct approve. }
    rewrite Hev. now rewrite app_nil_r.
  - rewrite <- Hc1.
    apply (execute_entry_completes _ ms pid); [now rewrite Hams|exact Haid].
Qed.

Lemma rejected_actions_are_executed_too_witness :
  exists (w1 w2 : world) (i : nat) (a : json),
    evaluate_entry (doc_entry 3 (JObj halt_members)) (At 2) (demo_world [])
    = (Done (At 3), w1)
    /\ appended EXEC_STREAM (demo_world []) w1 = [doc_entry i a]
    /\ py_item a "status" = Done (JStr "rejected")
    /\ execute_entry (doc_entry i a) Tail w1 = (Done (At i), w2)
    /\ file_lines LOGFILE (trace w2)
       = file_lines LOGFILE (trace (demo_world [])) ++ [json_dumps a]
    /\ completions "p-1" w2 = S (completions "p-1" (demo_world [])).
Proof.
  exact (rejected_actions_are_executed_too 3 halt_members "p-1" (JNum 1000)
           (At 2) Tail (demo_world []) eq_refl eq_refl).
Defined.

(** ** Starting at the tail of a stream *)

Lemma entries_le_last (es : list entry) :
  StronglySorted lt (map fst es) ->
  Forall (fun e : entry =>
            e.1 <= match last es with Some (i, _) => i | None => 0 end) es.
Proof.
  induction es as [|e es IH]; intros Hs; [constructor|].
  simpl in Hs. apply StronglySorted_inv in Hs as [Hs Hall].
  specialize (IH Hs). rewrite last_cons.
  destruct (last es) as [[i fs]|] eqn:El.
  - constructor; [|exact IH].
    apply last_Some_elem_of in El.
    apply (proj1 (Forall_map _ _ _)) in Hall.
    rewrite Forall_forall in Hall. specialize (Hall _ El). simpl in Hall. lia.
  - apply last_None in El. subst es. destruct e. repeat constructor.
Qed.

Lemma filter_after_bound (b : nat) (es : list entry) :
  Forall (fun e : entry => e.1 <= b) es ->
  filter (fun e : entry => b < e.1) es = [].
Proof.
  induction 1 as [|e es He Hes IH]; [reflexivity|].
  rewrite filter_cons_False by lia. exact IH.
Qed.

(** Nothing lies after the newest entry. *)
Lemma xread_top_empty (name : string) (n : nat) (t : list effect) :
  stream_ordered name t -> xread name (top_id name t) n t = [].
Proof.
  intros Hs. unfold xread, top_id.
  rewrite filter_after_bound by now apply entries_le_last.
  now destruct n.
Qed.

Lemma run_from_tail_idle (name : string)
    (body : entry -> cursor -> prog cursor) (errmsg : string) (n : nat)
    (w : world) :
  stream_ordered name (trace w) ->
  (run name body errmsg (idle_turns n) Tail w).1 = Tail
  /\ trace (run name body errmsg (idle_turns n) Tail w).2 = trace w.
Proof.
  intros Hs.
  destruct (run_idle_invariant name body errmsg Tail
              (fun _ w' => trace w' = trace w)) with (n := n) (k := 0) (w := w)
    as [Hc Ht]; [|reflexivity|now split].
  intros _ w' Hw'.
  unfold poll, resolve, arrive. cbn [fold_left].
  rewrite xread_top_empty by now rewrite Hw'.
  split; [reflexivity|exact Hw'].
Qed.

(** The three consumers start at the tail of their stream (["$"]): as
    long as nothing new arrives, whatever the stream already holds is
    never handled.  The cursor stays at the tail and, apart from the
    start-up message, nothing is written or logged. *)
Theorem consumers_skip_backlog (n : nat) (w : world) :
  stream_ordered STREAM_NAME (trace w) ->
  stream_ordered PROPOSAL_STREAM (trace w) ->
  stream_ordered EXEC_STREAM (trace w) ->
  ((start_manager (idle_turns n) w).1 = Tail
   /\ trace (start_manager (idle_turns n) w).2
      = trace w ++ [Log "INFO" "Agent manager started, listening to {}"])
  /\ ((governance_loop (idle_turns n) w).1 = Tail
      /\ trace (governance_loop (idle_turns n) w).2
         = trace w
           ++ [Log "INFO" "Governance engine started, listening to {}"])
  /\ ((execution_loop (idle_turns n) w).1 = Tail
      /\ trace (execution_loop (idle_turns n) w).2
         = trace w
           ++ [Log "INFO" "Execution engine started, listening to {}"]).
Proof.
  intros Ht Hp He.
  unfold start_manager, governance_loop, execution_loop.
  repeat split;
    apply run_from_tail_idle; unfold stream_ordered; cbn [snd log emit trace
      with_trace]; now rewrite xrange_snoc_log.
Qed.

Lemma consumers_skip_backlog_witness :
  (governance_loop (idle_turns 4) (demo_world garbled_proposals)).1 = Tail
  /\ trace (governance_loop (idle_turns 4) (demo_world garbled_proposals)).2
     = garbled_proposals
       ++ [Log "INFO" "Governance engine started, listening to {}"].
Proof.
  apply (consumers_skip_backlog 4 (demo_world garbled_proposals));
    unfold stream_ordered; cbn; repeat constructor.
Defined.

(** ** Turn after turn: every proposal is resolved once *)

Lemma cursor_after_app (c : cursor) (es1 es2 : list entry) :
  cursor_after c (es1 ++ es2) = cursor_after (cursor_after c es1) es2.
Proof.
  unfold cursor_after. rewrite last_app.
  destruct (last es2); [reflexivity|]. now destruct (last es1).
Qed.

Lemma cursor_after_ge (k k1 : nat) (es : list entry) :
  Forall (fun e : entry => k <= e.1) es ->
  cursor_after (At k) es = At k1 -> k <= k1.
Proof.
  intros Hall. unfold cursor_after.
  destruct (last es) as [e|] eqn:El; intros [= <-]; [|lia].
  apply last_Some_elem_of in El.
  rewrite Forall_forall in Hall. now apply Hall.
Qed.

Lemma filter_all_after (k : nat) (es : list entry) :
  Forall (fun e : entry => k < e.1) es ->
  filter (fun e : entry => k < e.1) es = es.
Proof.
  induction 1 as [|e es He Hes IH]; [reflexivity|].
  rewrite filter_cons_True by exact He. now rewrite IH.
Qed.

Lemma filter_after_ge (k : nat) (es : list entry) :
  Forall (fun e : entry => k <= e.1) (filter (fun e : entry => k < e.1) es).
Proof.
  induction es as [|e es IH]; [constructor|].
  destruct (decide (k < e.1)) as [Hlt|Hnlt].
  - rewrite filter_cons_True by exact Hlt. constructor; [lia|exact IH].
  - rewrite filter_cons_False by exact Hnlt. exact IH.
Qed.

(** In a stream whose ids grow, a consumer that has handled the first
    [m] unread entries and stands at the last of them has exactly the
    others left to read. *)
Lemma unread_after_prefix (es : list entry) :
  StronglySorted lt (map fst es) ->
  forall k m k1 : nat,
    cursor_after (At k) (take m (filter (fun e : entry => k < e.1) es))
    = At k1 ->
    filter (fun e : entry => k1 < e.1) es
    = drop m (filter (fun e : entry => k < e.1) es).
Proof.
  induction es as [|e es IH]; intros Hs k m k1 Hc.
  - cbn. now destruct m.
  - simpl in Hs. apply StronglySorted_inv in Hs as [Hs Hall].
    apply (proj1 (Forall_map _ _ _)) in Hall.
    assert (Hge : k <= k1).
    { eapply cursor_after_ge; [|exact Hc].
      apply Forall_take, filter_after_ge. }
    destruct (decide (k < e.1)) as [Hlt|Hnlt].
    + rewrite (filter_cons_True (fun e' : entry => k < e'.1) e es Hlt)
        in Hc |- *.
      assert (Hrest : filter (fun e' : entry => k < e'.1) es = es).
      { apply filter_all_after. eapply Forall_impl; [exact Hall|].
        simpl. intros; lia. }
      rewrite Hrest in Hc |- *.
      destruct m as [|m].
      * cbn in Hc. injection Hc as <-.
        rewrite filter_cons_True by exact Hlt. now rewrite Hrest.
      * cbn [take] in Hc. rewrite cursor_after_cons in Hc. cbn [drop].
        assert (Hself : filter (fun e' : entry => e.1 < e'.1) es = es)
          by now apply filter_all_after.
        assert (He1 : e.1 <= k1).
        { eapply cursor_after_ge; [|exact Hc]. apply Forall_take.
          eapply Forall_impl; [exact Hall|]. simpl. intros; lia. }
        rewrite filter_cons_False by lia.
        rewrite (IH Hs e.1 m k1); rewrite Hself; [reflexivity|exact Hc].
    + rewrite (filter_cons_False (fun e' : entry => k < e'.1) e es Hnlt)
        in Hc |- *.
      rewrite filter_cons_False by lia.
      now apply IH.
Qed.

(** What [n] idle turns of the Policy Evaluator do when every unread
    proposal has its id and timestamp. *)
Lemma governance_turns_effects (n : nat) :
  forall (k : nat) (w : world),
    stream_ordered PROPOSAL_STREAM (trace w) ->
    Forall (fun e => is_Some (resolved_id e))
           (unread PROPOSAL_STREAM k (trace w)) ->
    exists (w' : world) (sfx : list effect),
      run PROPOSAL_STREAM evaluate_entry "Governance loop error: {}"
          (idle_turns n) (At k) w
      = (cursor_after (At k)
           (take (10 * n) (unread PROPOSAL_STREAM k (trace w))), w')
      /\ trace w' = trace w ++ sfx
      /\ map action_id_of (xrange EXEC_STREAM sfx)
         = map resolved_id
             (take (10 * n) (unread PROPOSAL_STREAM k (trace w)))
      /\ length (xrange AUDIT_STREAM sfx)
         = length (take (10 * n) (unread PROPOSAL_STREAM k (trace w))).
Proof.
  induction n as [|n IH]; intros k w Hs Hall.
  - exists w, []. rewrite app_nil_r. now repeat split.
  - cbn [idle_turns replicate run].
    unfold poll at 1, resolve, arrive, xread. cbn [fold_left].
    fold (unread PROPOSAL_STREAM k (trace w)).
    set (U := unread PROPOSAL_STREAM k (trace w)) in *.
    replace (10 * S n) with (10 + 10 * n) by lia.
    rewrite <- (take_take_drop U 10 (10 * n)).
    destruct (take 10 U) as [|e P] eqn:HP.
    + (* nothing to read *)
      assert (HU : U = []).
      { destruct (take_nil_inv _ _ HP) as [H|H]; [discriminate|exact H]. }
      set (w1 := (sleep (1 # 100) w).2).
      destruct (IH k w1) as (w' & sfx & Hrun & Htr & Hex & Hau).
      * exact Hs.
      * exact Hall.
      * exists w', sfx.
        change (trace w1) with (trace w) in Hrun, Htr, Hex, Hau.
        fold U in Hrun, Hex, Hau.
        rewrite HU in *. rewrite drop_nil, take_nil in *.
        now repeat split.
    + (* a batch of at most ten *)
      assert (HallP : Forall (fun e => is_Some (resolved_id e)) (e :: P)).
      { rewrite <- HP. now apply Forall_take. }
      destruct (evaluator_batch_effects (e :: P) HallP (At k) w)
        as (sfx1 & Hrun1 & Hex1 & Hau1 & Hpr1).
      rewrite Hrun1.
      destruct (cursor_after (At k) (e :: P)) as [|k1] eqn:Hk1.
      { unfold cursor_after in Hk1. rewrite last_cons in Hk1.
        now destruct (last P). }
      set (w1 := with_trace w (trace w ++ sfx1)).
      assert (Hx1 : xrange PROPOSAL_STREAM (trace w1)
                    = xrange PROPOSAL_STREAM (trace w)).
      { subst w1. cbn [trace with_trace].
        now rewrite xrange_app, Hpr1, app_nil_r. }
      assert (HU1 : unread PROPOSAL_STREAM k1 (trace w1) = drop 10 U).
      { unfold unread. rewrite Hx1. subst U. unfold unread.
        apply unread_after_prefix; [exact Hs|].
        fold (unread PROPOSAL_STREAM k (trace w)). now rewrite HP. }
      destruct (IH k1 w1) as (w' & sfx & Hrun & Htr & Hex & Hau).
      * unfold stream_ordered. now rewrite Hx1.
      * rewrite HU1. now apply Forall_drop.
      * rewrite HU1 in Hrun, Hex, Hau.
        exists w', (sfx1 ++ sfx). cbv beta iota. fold (idle_turns n).
        fold w1. rewrite Hrun, cursor_after_app, Hk1.
        split; [reflexivity|].
        split; [rewrite Htr; subst w1; cbn [trace with_trace];
                now rewrite app_assoc|].
        rewrite !xrange_app, !map_app, !length_app.
        now rewrite Hex1, Hex, Hau1, Hau.
Qed.

(** With a cursor at an entry and nothing arriving, [n] turns of the
    Policy Evaluator resolve the first [10 * n] unread proposals (ten per
    turn), each once and in stream order, provided they all have their id
    and timestamp: the cursor ends at the last of them, and one Action
    with the proposal's id and one AuditEvent were written per proposal. *)
Theorem governance_resolves_each_once (n k : nat) (w : world) :
  stream_ordered PROPOSAL_STREAM (trace w) ->
  Forall (fun e => is_Some (resolved_id e))
         (unread PROPOSAL_STREAM k (trace w)) ->
  let handled := take (10 * n) (unread PROPOSAL_STREAM k (trace w)) in
  exists w' : world,
    run PROPOSAL_STREAM evaluate_entry "Governance loop error: {}"
        (idle_turns n) (At k) w
    = (cursor_after (At k) handled, w')
    /\ map action_id_of (appended EXEC_STREAM w w') = map resolved_id handled
    /\ length (appended AUDIT_STREAM w w') = length handled.
Proof.
  intros Hs Hall handled.
  destruct (governance_turns_effects n k w Hs Hall)
    as (w' & sfx & Hrun & Htr & Hex & Hau).
  exists w'. split; [exact Hrun|].
  now rewrite !(appended_suffix _ _ _ _ Htr).
Qed.

Lemma governance_resolves_each_once_witness :
  exists w' : world,
    run PROPOSAL_STREAM evaluate_entry "Governance loop error: {}"
        (idle_turns 3) (At 0) (demo_world pending_proposals)
    = (At 2, w')
    /\ map action_id_of (appended EXEC_STREAM (demo_world pending_proposals) w')
       = [Some (JStr "p-1"); Some (JStr "p-2")]
    /\ length (appended AUDIT_STREAM (demo_world pending_proposals) w') = 2.
Proof.
  apply (governance_resolves_each_once 3 0 (demo_world pending_proposals)).
  - unfold stream_ordered. cbn. repeat constructor.
  - repeat constructor; eexists; reflexivity.
Defined.

(** ** The replay player on any input *)

Lemma insert_row_perm (ties : cells -> cells -> bool) (r : cells)
    (l : list cells) :
  insert_row ties r l ≡ₚ r :: l.
Proof.
  induction l as [|a l IH]; simpl; [reflexivity|].
  destruct (Qle_bool (c_timestamp r) (c_timestamp a));
    [destruct (Qle_bool (c_timestamp a) (c_timestamp r));
       [destruct (ties r a)|]|];
    try reflexivity; rewrite IH; apply Permutation_swap.
Qed.

Lemma insert_row_sorted (ties : cells -> cells -> bool) (r : cells)
    (l : list cells) :
  StronglySorted (fun a b => (c_timestamp a <= c_timestamp b)%Q) l ->
  StronglySorted (fun a b => (c_timestamp a <= c_timestamp b)%Q)
                 (insert_row ties r l).
Proof.
  induction 1 as [|a l Hs IH Hall]; simpl; [repeat constructor|].
  assert (Hfront : (c_timestamp r <= c_timestamp a)%Q ->
            StronglySorted (fun a b => (c_timestamp a <= c_timestamp b)%Q)
                           (r :: a :: l)).
  { intros E. constructor; [now constructor|].
    constructor; [exact E|].
    eapply Forall_impl; [exact Hall|].
    intros b Hab. now apply Qle_trans with (c_timestamp a). }
  assert (Hback : (c_timestamp a <= c_timestamp r)%Q ->
            StronglySorted (fun a b => (c_timestamp a <= c_timestamp b)%Q)
                           (a :: insert_row ties r l)).
  { intros E. constructor; [exact IH|].
    rewrite insert_row_perm. now constructor. }
  destruct (Qle_bool (c_timestamp r) (c_timestamp a)) eqn:E1.
  - apply Qle_bool_iff in E1.
    destruct (Qle_bool (c_timestamp a) (c_timestamp r)) eqn:E2;
      [|now apply Hfront].
    apply Qle_bool_iff in E2.
    destruct (ties r a); [now apply Hfront|now apply Hback].
  - apply Hback. apply Qlt_le_weak, Qnot_le_lt. intros H.
    apply Qle_bool_iff in H. congruence.
Qed.

(** [sort_values] returns the rows it was given, each as often as it was
    given, in non-decreasing order of timestamp, whatever it does with
    ties. *)
Lemma sort_rows_sorts (ties : cells -> cells -> bool) (rows : list cells) :
  StronglySorted (fun a b => (c_timestamp a <= c_timestamp b)%Q)
                 (sort_rows ties rows)
  /\ sort_rows ties rows ≡ₚ rows.
Proof.
  induction rows as [|r rows [IHs IHp]]; simpl.
  - split; [constructor|reflexivity].
  - split; [now apply insert_row_sorted|].
    now rewrite insert_row_perm, IHp.
Qed.

Lemma sort_rows_length (ties : cells -> cells -> bool) (rows : list cells) :
  length (sort_rows ties rows) = length rows.
Proof. apply Permutation_length, sort_rows_sorts. Qed.




(** At speed zero the fixed-interval mode divides by zero before the
    first tick: [run_player] ends in [ZeroDivisionError] and the tick
    stream is as it was, whatever the input. *)
Theorem replay_paced_at_speed_zero (ties : cells -> cells -> bool)
    (file : frame) (speed : Q) (w : world) :
  (speed == 0)%Q ->
  exists w' : world,
    run_player ties file speed false w = (Raised ZeroDivisionError, w')
    /\ appended STREAM_NAME w w' = [].
Proof.
  intros Hz. apply Qeq_bool_iff in Hz.
  unfold run_player.
  unfold bind at 1, log at 1, emit. unfold bind at 1, log at 1, emit.
  unfold bind, lift, py_div. rewrite Hz.
  eexists. split; [reflexivity|].
  unfold appended. cbn [trace with_trace].
  rewrite !xrange_snoc_log. apply drop_all.
Qed.

Lemma replay_paced_at_speed_zero_witness :
  exists w' : world,
    run_player file_order demo_frame 0 false (demo_world [])
    = (Raised ZeroDivisionError, w')
    /\ appended STREAM_NAME (demo_world []) w' = [].
Proof.
  apply (replay_paced_at_speed_zero file_order demo_frame 0 (demo_world [])).
  reflexivity.
Defined.

(** At speed zero the realtime mode publishes one row and then divides
    by zero when it computes the pause before the second: with two rows
    or more [run_player] ends in [ZeroDivisionError] having appended
    exactly one entry.  The row it publishes is a row of the file whose
    timestamp no other row's is below; among several such rows, which one
    is the sort's choice. *)
Theorem replay_realtime_at_speed_zero (ties : cells -> cells -> bool)
    (file : frame) (speed : Q) (w : world) :
  (speed == 0)%Q ->
  2 <= length (frame_rows file) ->
  exists (w' : world) (first : row),
    run_player ties file speed true w = (Raised ZeroDivisionError, w')
    /\ first ∈ iterrows file
    /\ Forall (fun c => (r_timestamp first <= c_timestamp c)%Q)
              (frame_rows file)
    /\ appended STREAM_NAME w w'
       = [doc_entry (S (top_id STREAM_NAME (trace w)))
            (tick_doc (uuid_pool w (uuid_drawn w)) first)].
Proof.
  intros Hz Hlen. apply Qeq_bool_iff in Hz.
  destruct (sort_rows_sorts ties (frame_rows file)) as [Hs Hp].
  rewrite <- (sort_rows_length ties) in Hlen.
  unfold run_player, sort_values, iterrows at 1.
  cbn [has_size has_side frame_rows].
  destruct (sort_rows ties (frame_rows file)) as [|c1 [|c2 rest]];
    simpl in Hlen; try lia.
  cbn [map replay_realtime].
  cbv [bind lift py_div ret publish_tick uuid4 xadd emit log].
  rewrite Hz.
  cbn [trace with_trace uuid_pool uuid_drawn now_ms r_timestamp].
  rewrite !top_id_snoc_log.
  eexists. eexists. split; [reflexivity|].
  split; [|split].
  - unfold iterrows.
    apply (list_elem_of_fmap_2
             (fun c => Row (c_timestamp c) (c_symbol c) (c_price c)
                           (if has_size file then Some (c_size c) else None)
                           (if has_side file then Some (c_side c) else None))).
    rewrite <- Hp. apply list_elem_of_here.
  - cbn [r_timestamp]. apply (Permutation_Forall Hp).
    apply StronglySorted_inv in Hs as [_ Hall].
    constructor; [apply Qle_refl|exact Hall].
  - unfold appended. cbn [trace with_trace].
    rewrite xrange_app, !xrange_snoc_log, drop_app_length.
    cbn. reflexivity.
Qed.

Lemma replay_realtime_at_speed_zero_witness :
  exists (w' : world) (first : row),
    run_player file_order shuffled_frame 0 true (demo_world [])
    = (Raised ZeroDivisionError, w')
    /\ first ∈ iterrows shuffled_frame
    /\ Forall (fun c => (r_timestamp first <= c_timestamp c)%Q)
              (frame_rows shuffled_frame)
    /\ appended STREAM_NAME (demo_world []) w'
       = [doc_entry 1 (tick_doc "uuid-0" first)].
Proof.
  apply (replay_realtime_at_speed_zero file_order shuffled_frame 0
           (demo_world [])).
  - reflexivity.
  - cbn. lia.
Defined.


(** ** The gateway from one broadcast to the next *)

(** One pass during which no other handler runs. *)
Lemma broadcast_quiet (msg : string) (g : gateway) :
  (forall c : nat,
     c ∈ active (broadcast msg [] g).2 <-> c ∈ active g /\ c ∉ closed g)
  /\ closed (broadcast msg [] g).2 = closed g
  /\ sends (broadcast msg [] g).2 = sends g ++ elements (active g)
  /\ forall c : nat,
       received c (broadcast msg [] g).2
       = if decide (c ∈ active g /\ c ∉ closed g)
         then received c g ++ [msg] else received c g.
Proof.
  assert (Hnd : NoDup (elements (active g))) by apply NoDup_elements.
  destruct (send_all_spec msg (elements (active g)) Hnd [] [] g)
    as (Htr & Hsn & Hcl & Hac & Hrc).
  unfold broadcast.
  destruct (send_all msg (elements (active g)) [] [] g) as [tr g1].
  cbn [fst snd] in *.
  destruct (remove_all_spec tr g1) as (Ha' & Hc' & Hi' & Hs').
  rewrite take_nil in Hac. cbn in Hac.
  split; [|split; [congruence|split; [congruence|]]].
  - intros c. rewrite Ha', Hac, Htr. cbn [app].
    rewrite elem_of_difference, elem_of_list_to_set, list_elem_of_filter,
      elem_of_elements.
    tauto.
  - intros c. unfold received at 1. rewrite Hi'. fold (received c g1).
    rewrite Hrc.
    destruct (decide (c ∈ active g /\ c ∉ closed g)) as [[Hin Hop]|Hno].
    + rewrite decide_True; [reflexivity|]. split; [|exact Hop].
      now apply elem_of_elements.
    + rewrite decide_False; [reflexivity|].
      rewrite elem_of_elements. exact Hno.
Qed.

(** After a broadcast the registered connections are those that were
    registered before and whose socket is open: a connection whose send
    raised is gone, and no other connection is removed. *)
Theorem broadcast_prunes_closed (msg : string) (g : gateway) (c : nat) :
  c ∈ active (broadcast msg [] g).2 <-> c ∈ active g /\ c ∉ closed g.
Proof. apply broadcast_quiet. Qed.

(** Two broadcasts in a row: a closed socket is tried by the first and
    not by the second, the second removes nobody, and every open
    registered connection has received both messages, in the order they
    were broadcast. *)
Theorem broadcast_twice (m1 m2 : string) (g : gateway) :
  let g1 := (broadcast m1 [] g).2 in
  let g2 := (broadcast m2 [] g1).2 in
  active g2 = active g1
  /\ sends g2 = sends g ++ elements (active g) ++ elements (active g1)
  /\ Forall (fun c : nat => c ∉ closed g) (elements (active g1))
  /\ forall c : nat,
       received c g2
       = if decide (c ∈ active g /\ c ∉ closed g)
         then received c g ++ [m1; m2] else received c g.
Proof.
  intros g1 g2.
  destruct (broadcast_quiet m1 g) as (Ha1 & Hc1 & Hs1 & Hr1).
  destruct (broadcast_quiet m2 g1) as (Ha2 & Hc2 & Hs2 & Hr2).
  fold g1 in Ha1, Hc1, Hs1, Hr1. fold g2 in Ha2, Hc2, Hs2, Hr2.
  split; [|split; [|split]].
  - apply set_eq. intros c. rewrite Ha2, Hc1, Ha1. tauto.
  - rewrite Hs2, Hs1. now rewrite <- app_assoc.
  - apply Forall_forall. intros c Hin.
    apply elem_of_elements, Ha1 in Hin. tauto.
  - intros c. rewrite Hr2, Hr1, Hc1.
    destruct (decide (c ∈ active g /\ c ∉ closed g)) as [Hyes|Hno].
    + rewrite decide_True; [now rewrite <- app_assoc|].
      split; [now apply Ha1|tauto].
    + rewrite decide_False; [reflexivity|].
      rewrite Ha1. tauto.
Qed.

Lemma broadcast_twice_witness :
  received 1 (broadcast "b" [] (broadcast "a" [] demo_gateway).2).2
  = ["a"; "b"]
  /\ received 2 (broadcast "b" [] (broadcast "a" [] demo_gateway).2).2 = [].
Proof.
  destruct (broadcast_twice "a" "b" demo_gateway) as (_ & _ & _ & Hr).
  split; [rewrite (Hr 1)|rewrite (Hr 2)]; reflexivity.
Defined.

(** ** Witnesses for the reputation scores *)

Lemma reputation_update_clamped_witness :
  get_agent_reputation "agent.risk.1"
    (update_agent_reputation Qplus "agent.risk.1" (-5) "rejected_proposal"
       demo_db)
  = Some 0%Q
  /\ get_agent_reputation "agent.market.1"
       (update_agent_reputation Qplus "agent.risk.1" (-5)
          "rejected_proposal" demo_db)
     = Some 40%Q.
Proof.
  destruct (reputation_update_clamped Qplus "agent.risk.1" (-5)
              "rejected_proposal" demo_db) as (Hself & _ & Hother & _).
  split; [exact Hself|]. apply Hother. discriminate.
Defined.

Lemma register_agent_keeps_reputation_witness :
  get_agent_reputation "agent.new" (register_agent "agent.new" "market" None
                                      demo_db)
  = Some 100%Q
  /\ get_agent_reputation "agent.risk.1"
       (register_agent "agent.new" "market" None demo_db)
     = Some 3%Q.
Proof.
  destruct (register_agent_keeps_reputation "agent.new" "market" None demo_db)
    as (Hself & Hother & _).
  split; [exact Hself|]. apply Hother. discriminate.
Defined.

(** ** Votes *)

Lemma filter_same_ballot_map (proposal : N) (agent : string)
    (f : vote_row -> vote_row) (votes : list vote_row) :
  (forall r, same_ballot proposal agent (f r) = same_ballot proposal agent r) ->
  filter (fun r => same_ballot proposal agent r = true) (map f votes)
  = map f (filter (fun r => same_ballot proposal agent r = true) votes).
Proof.
  intros Hf. induction votes as [|r votes IH]; [reflexivity|].
  cbn [map]. destruct (same_ballot proposal agent r) eqn:E.
  - rewrite !filter_cons_True by (now rewrite ?Hf). cbn [map]. now rewrite IH.
  - rewrite !filter_cons_False by (rewrite ?Hf; congruence). exact IH.
Qed.

Lemma existsb_same_ballot (proposal : N) (agent : string)
    (votes : list vote_row) :
  existsb (same_ballot proposal agent) votes = false <->
  filter (fun r => same_ballot proposal agent r = true) votes = [].
Proof.
  induction votes as [|r votes IH]; [now split|].
  cbn [existsb]. destruct (same_ballot proposal agent r) eqn:E.
  - rewrite filter_cons_True by exact E. now split.
  - rewrite filter_cons_False by congruence. exact IH.
Qed.

(** A proposal id that the database does not read as a uuid makes
    [insert_vote] raise; no table is returned. *)
Lemma insert_vote_not_uuid (uuid_in : string -> option N)
    (proposal agent vote : string) (weight : Q) (timestamp : Z)
    (reason : option string) (votes : list vote_row) :
  uuid_in proposal = None ->
  insert_vote uuid_in proposal agent vote weight timestamp reason votes
  = Raised DataError.
Proof. intros Hno. unfold insert_vote. now rewrite Hno. Qed.

(** A vote on a proposal whose id the database reads as the uuid [u],
    by an agent that has voted on that proposal already, under whatever
    spelling of the uuid: the statement does not raise; it replaces the
    vote, the weight and the reason of the earlier row and keeps its
    timestamp; no row is added and the rows of other ballots are not
    touched. *)
Theorem vote_again_keeps_timestamp (uuid_in : string -> option N)
    (proposal agent vote : string) (weight : Q) (timestamp : Z)
    (reason : option string) (votes : list vote_row) (u : N)
    (old : vote_row) :
  uuid_in proposal = Some u ->
  filter (fun r => same_ballot u agent r = true) votes = [old] ->
  exists votes' : list vote_row,
    insert_vote uuid_in proposal agent vote weight timestamp reason votes
    = Done votes'
    /\ filter (fun r => same_ballot u agent r = true) votes'
       = [VoteRow u agent vote weight (v_timestamp old) reason]
    /\ length votes' = length votes
    /\ filter (fun r => same_ballot u agent r <> true) votes'
       = filter (fun r => same_ballot u agent r <> true) votes.
Proof.
  intros Hu Hold. unfold insert_vote. rewrite Hu.
  eexists. split; [reflexivity|].
  assert (Ho : same_ballot u agent old = true).
  { assert (Hin : old ∈ filter (fun r => same_ballot u agent r = true) votes)
      by (rewrite Hold; apply list_elem_of_here).
    now apply list_elem_of_filter in Hin. }
  destruct (existsb (same_ballot u agent) votes) eqn:Hex.
  - split; [|split].
    + rewrite filter_same_ballot_map.
      * rewrite Hold. cbn [map]. rewrite Ho.
        unfold same_ballot in Ho. apply andb_prop in Ho as [Hp Ha].
        apply N.eqb_eq in Hp. apply String.eqb_eq in Ha.
        now rewrite Hp, Ha.
      * intros r. now destruct (same_ballot u agent r) eqn:E.
    + apply length_map.
    + clear Hold Hex Ho. induction votes as [|r votes IH]; [reflexivity|].
      cbn [map]. destruct (same_ballot u agent r) eqn:E.
      * rewrite !filter_cons_False; [exact IH| |];
          cbn; tauto || (rewrite E; tauto).
      * rewrite !filter_cons_True by (rewrite E; congruence). now rewrite IH.
  - apply existsb_same_ballot in Hex. rewrite Hex in Hold. discriminate.
Qed.

Lemma vote_again_keeps_timestamp_witness :
  exists votes' : list vote_row,
    insert_vote demo_uuid_in "00000000000000000000000000000001"
      "agent.risk.1" "reject" 3 2000 (Some "changed my mind") demo_votes
    = Done votes'
    /\ filter (fun r => same_ballot 1 "agent.risk.1" r = true) votes'
       = [VoteRow 1 "agent.risk.1" "reject" 3 1000 (Some "changed my mind")]
    /\ length votes' = 2
    /\ filter (fun r => same_ballot 1 "agent.risk.1" r <> true) votes'
       = filter (fun r => same_ballot 1 "agent.risk.1" r <> true) demo_votes.
Proof.
  exact (vote_again_keeps_timestamp demo_uuid_in
           "00000000000000000000000000000001" "agent.risk.1" "reject" 3 2000
           (Some "changed my mind") demo_votes 1%N
           (VoteRow 1 "agent.risk.1" "approve" 1 1000 None)
           eq_refl eq_refl).
Defined.
